(** * CRC data layer (data.js): storage, session and domain operations

    A shallow embedding of the [CRCData] module of [data.js].

    Modelling conventions.
    - A JS string is a [string]; [toLowerCase] acts on the letters A-Z.
    - A JS number is an integer [Z] (the data layer only stores, defaults and
      compares numbers with zero; it never does arithmetic on them).
    - A value that may be [null] or [undefined] is an [option].
    - An array is a [list]; [push] appends, [unshift] prepends, and an
      element mutated through the reference [find] returned is replaced at
      its position ([assign_first]).
    - [localStorage] holds text.  The program only ever hands a stored text
      to [JSON.parse], so a text is represented by what [JSON.parse] makes of
      it ([text]).
    - [Math.random] and [Date] are oracles carried by the [World]. *)

From Stdlib Require Import String Ascii List ZArith Bool Arith Lia DecimalString.
Import ListNotations.
Open Scope string_scope.
Open Scope list_scope.

(* ------------------------------------------------------------------ *)
(** ** JavaScript values *)

Definition lower_ascii (c : ascii) : ascii :=
  let n := nat_of_ascii c in
  if (65 <=? n)%nat && (n <=? 90)%nat then ascii_of_nat (n + 32) else c.

(** [String.prototype.toLowerCase] *)
Fixpoint toLowerCase (s : string) : string :=
  match s with
  | EmptyString => EmptyString
  | String c r => String (lower_ascii c) (toLowerCase r)
  end.

(** Truthiness, as [!x], [x || y] and [if (x)] see it. *)
Class Truthy (A : Type) := truthy : A -> bool.

#[global] Instance Truthy_string : Truthy string :=
  fun s => negb (s =? "").
#[global] Instance Truthy_number : Truthy Z :=
  fun n => negb (n =? 0)%Z.
#[global] Instance Truthy_option {A} `{Truthy A} : Truthy (option A) :=
  fun o => match o with Some a => truthy a | None => false end.

(** [x || d] where [x] may be undefined and [d] is a plain value. *)
Definition or_else {A} `{Truthy A} (x : option A) (d : A) : A :=
  match x with
  | Some a => if truthy a then a else d
  | None => d
  end.

(** [x || null] *)
Definition or_null {A} `{Truthy A} (x : option A) : option A :=
  match x with
  | Some a => if truthy a then Some a else None
  | None => None
  end.

(** [x ?? d] *)
Definition nullish {A} (x : option A) (d : A) : A :=
  match x with Some a => a | None => d end.

(** [Array.prototype.find], [some] and [every] are [List.find], [existsb]
    and [forallb].  [assign_first test f l] is the array [l] after the
    element that [l.find(test)] returned was mutated by [f]. *)
Fixpoint assign_first {A} (test : A -> bool) (f : A -> A) (l : list A) : list A :=
  match l with
  | [] => []
  | x :: r => if test x then f x :: r else x :: assign_first test f r
  end.

(* ------------------------------------------------------------------ *)
(** ** Entities *)

Module User.
Record t := mk
    { id : string; email : string; name : string; role : option string;
      createdAt : string }.
End User.

Module Lead.
Record t := mk
    { id : string; referrerId : option string; email : string;
      notes : option string; status : string; createdAt : string;
      convertedProjectId : option string }.

Definition convert (projectId : string) (l : t) : t :=
    mk (id l) (referrerId l) (email l) (notes l) "converted" (createdAt l)
       (Some projectId).
End Lead.

Module Stage.
Record t := mk { key : string; label : string; done : bool }.

Definition flip (s : t) : t := mk (key s) (label s) (negb (done s)).
End Stage.

Module Project.
Record t := mk
    { id : string; customerId : string; createdAt : string;
      location : string; plot : Z; budget : Z; materials : string;
      timeline : Z; status : string; verified : bool;
      assignedContractor : option string; referrerId : option string;
      commissionPercent : Z; stages : list Stage.t }.

Definition set_status (v : string) (p : t) : t :=
    mk (id p) (customerId p) (createdAt p) (location p) (plot p) (budget p)
       (materials p) (timeline p) v (verified p) (assignedContractor p)
       (referrerId p) (commissionPercent p) (stages p).

Definition set_stages (v : list Stage.t) (p : t) : t :=
    mk (id p) (customerId p) (createdAt p) (location p) (plot p) (budget p)
       (materials p) (timeline p) (status p) (verified p)
       (assignedContractor p) (referrerId p) (commissionPercent p) v.
End Project.

(** The [payload] argument of [addProject]: every property may be left out. *)
Module Payload.
Record t := mk
    { location : option string; plot : option Z; budget : option Z;
      materials : option string; timeline : option Z;
      referrerId : option string; commissionPercent : option Z }.

Definition empty : t := mk None None None None None None None.

(** The payload with every falsy location, plot, budget, materials and
    timeline left out. *)
Definition drop_falsy (p : t) : t :=
  mk (or_null (location p)) (or_null (plot p)) (or_null (budget p))
     (or_null (materials p)) (or_null (timeline p)) (referrerId p)
     (commissionPercent p).
End Payload.

(** The [changes] argument of [updateProject]: the own properties of the
    object, each one overwriting the project's. *)
Module Changes.
Record t := mk
    { id : option string; customerId : option string;
      createdAt : option string; location : option string;
      plot : option Z; budget : option Z; materials : option string;
      timeline : option Z; status : option string; verified : option bool;
      assignedContractor : option (option string);
      referrerId : option (option string);
      commissionPercent : option Z; stages : option (list Stage.t) }.

Definition empty : t :=
    mk None None None None None None None None None None None None None None.
End Changes.

(** [Object.assign(p, changes)] *)
Definition Object_assign (p : Project.t) (c : Changes.t) : Project.t :=
  Project.mk
    (nullish (Changes.id c) (Project.id p))
    (nullish (Changes.customerId c) (Project.customerId p))
    (nullish (Changes.createdAt c) (Project.createdAt p))
    (nullish (Changes.location c) (Project.location p))
    (nullish (Changes.plot c) (Project.plot p))
    (nullish (Changes.budget c) (Project.budget p))
    (nullish (Changes.materials c) (Project.materials p))
    (nullish (Changes.timeline c) (Project.timeline p))
    (nullish (Changes.status c) (Project.status p))
    (nullish (Changes.verified c) (Project.verified p))
    (nullish (Changes.assignedContractor c) (Project.assignedContractor p))
    (nullish (Changes.referrerId c) (Project.referrerId p))
    (nullish (Changes.commissionPercent c) (Project.commissionPercent p))
    (nullish (Changes.stages c) (Project.stages p)).

Module Defaults.
Record t := mk { defaultCommission : Z }.
End Defaults.

(** What an operation returns: [{ error: msg }] or [{ ok: true, ... }]. *)
Inductive Result (A : Type) : Type :=
| Error (msg : string)
| Ok (v : A).
Arguments Error {A} msg.
Arguments Ok {A} v.

(* ------------------------------------------------------------------ *)
(** ** The browser: storage, session storage, channel, random and clock *)

(** A stored text, up to what [JSON.parse] makes of it: the empty string,
    a text [JSON.parse] rejects with a [SyntaxError], or a text it reads as
    the value [v] (such as [JSON.stringify v]). *)
Inductive text (A : Type) : Type :=
| Empty
| Malformed
| Encoded (v : A).
Arguments Empty {A}.
Arguments Malformed {A}.
Arguments Encoded {A} v.

#[global] Instance Truthy_text {A} : Truthy (text A) :=
  fun t => match t with Empty => false | _ => true end.

(** The outcome of evaluating an expression that may throw. *)
Inductive completion (A : Type) : Type :=
| Normal (v : A)
| Throw (e : string).
Arguments Normal {A} v.
Arguments Throw {A} e.

Definition JSON_parse {A} (t : text A) : completion A :=
  match t with
  | Encoded v => Normal v
  | Empty | Malformed => Throw "SyntaxError"
  end.

Definition JSON_stringify {A} (v : A) : text A := Encoded v.

(** [try { return body } catch (e) { return handler(e) }] *)
Definition try_catch {A} (body : completion A) (handler : string -> A) : A :=
  match body with
  | Normal v => v
  | Throw e => handler e
  end.

Record localStorage := mkLocal
  { crc_users_v3 : option (text (list User.t));
    crc_projects_v3 : option (text (list Project.t));
    crc_leads_v3 : option (text (list Lead.t));
    crc_defaults_v3 : option (text Defaults.t) }.

(** A storage key together with the type of what is kept under it. *)
Record Key (A : Type) := mkKey
  { key_name : string;
    getItem : localStorage -> option (text A);
    setItem : text A -> localStorage -> localStorage;
    removeItem : localStorage -> localStorage }.
Arguments key_name {A} k.
Arguments getItem {A} k ls.
Arguments setItem {A} k t ls.
Arguments removeItem {A} k ls.

Module KEYS.
Definition users : Key (list User.t) :=
  mkKey _ "crc_users_v3" crc_users_v3
    (fun t ls => mkLocal (Some t) (crc_projects_v3 ls) (crc_leads_v3 ls) (crc_defaults_v3 ls))
    (fun ls => mkLocal None (crc_projects_v3 ls) (crc_leads_v3 ls) (crc_defaults_v3 ls)).
Definition projects : Key (list Project.t) :=
  mkKey _ "crc_projects_v3" crc_projects_v3
    (fun t ls => mkLocal (crc_users_v3 ls) (Some t) (crc_leads_v3 ls) (crc_defaults_v3 ls))
    (fun ls => mkLocal (crc_users_v3 ls) None (crc_leads_v3 ls) (crc_defaults_v3 ls)).
Definition leads : Key (list Lead.t) :=
  mkKey _ "crc_leads_v3" crc_leads_v3
    (fun t ls => mkLocal (crc_users_v3 ls) (crc_projects_v3 ls) (Some t) (crc_defaults_v3 ls))
    (fun ls => mkLocal (crc_users_v3 ls) (crc_projects_v3 ls) None (crc_defaults_v3 ls)).
Definition defaults : Key Defaults.t :=
  mkKey _ "crc_defaults_v3" crc_defaults_v3
    (fun t ls => mkLocal (crc_users_v3 ls) (crc_projects_v3 ls) (crc_leads_v3 ls) (Some t))
    (fun ls => mkLocal (crc_users_v3 ls) (crc_projects_v3 ls) (crc_leads_v3 ls) None).
End KEYS.

(** Messages posted on the broadcast channel [crc_channel_v3]. *)
Inductive message : Type :=
| sync (key ts : string)
| auth (userId : option string)
| auth_logout
| cleared.

Record World := mkWorld
  { local : localStorage;
    (** [sessionStorage], which only ever holds the key [crc_session_v3] *)
    session : option (text (option User.t));
    (** messages posted so far, oldest first *)
    channel : list message;
    (** the n-th [Math.random().toString(36).slice(2,9)] *)
    Math_random : nat -> string;
    (** the n-th [new Date().toISOString()] *)
    Date_toISOString : nat -> string;
    (** how many values the two oracles have handed out *)
    calls : nat }.

(** Statements of the program run in a state monad over the [World]. *)
Definition M (A : Type) : Type := World -> A * World.

Definition ret {A} (a : A) : M A := fun w => (a, w).
Definition bind {A B} (m : M A) (k : A -> M B) : M B :=
  fun w => let (a, w') := m w in k a w'.

Declare Scope js_scope.
Delimit Scope js_scope with js.
Notation "x <- m ;; k" := (bind m (fun x => k))
  (at level 61, m at next level, right associativity) : js_scope.
Notation "m ;; k" := (bind m (fun _ => k))
  (at level 61, right associativity) : js_scope.
Open Scope js_scope.

Definition localStorage_getItem {A} (k : Key A) : M (option (text A)) :=
  fun w => (getItem k (local w), w).

Definition localStorage_setItem {A} (k : Key A) (t : text A) : M unit :=
  fun w => (tt, mkWorld (setItem k t (local w)) (session w) (channel w)
                        (Math_random w) (Date_toISOString w) (calls w)).

Definition localStorage_removeItem {A} (k : Key A) : M unit :=
  fun w => (tt, mkWorld (removeItem k (local w)) (session w) (channel w)
                        (Math_random w) (Date_toISOString w) (calls w)).

Definition sessionStorage_getItem : M (option (text (option User.t))) :=
  fun w => (session w, w).

Definition sessionStorage_setItem (t : text (option User.t)) : M unit :=
  fun w => (tt, mkWorld (local w) (Some t) (channel w)
                        (Math_random w) (Date_toISOString w) (calls w)).

Definition sessionStorage_removeItem : M unit :=
  fun w => (tt, mkWorld (local w) None (channel w)
                        (Math_random w) (Date_toISOString w) (calls w)).

Definition BC_postMessage (m : message) : M unit :=
  fun w => (tt, mkWorld (local w) (session w) (channel w ++ [m])
                        (Math_random w) (Date_toISOString w) (calls w)).

(** function uid(prefix='') *)
Definition uid (prefix : string) : M string :=
  fun w => ((prefix ++ Math_random w (calls w))%string,
            mkWorld (local w) (session w) (channel w)
                    (Math_random w) (Date_toISOString w) (S (calls w))).

(** function now() *)
Definition now : M string :=
  fun w => (Date_toISOString w (calls w),
            mkWorld (local w) (session w) (channel w)
                    (Math_random w) (Date_toISOString w) (S (calls w))).

(* ------------------------------------------------------------------ *)
(** ** CRCData *)

(** function read(k, fallback = []) *)
Definition read {A} (k : Key A) (fallback : A) : M A :=
  stored <- localStorage_getItem k ;;
  ret (try_catch (JSON_parse (or_else stored (JSON_stringify fallback)))
                 (fun _ => fallback)).

(** function write(k, v) *)
Definition write {A} (k : Key A) (v : A) : M unit :=
  localStorage_setItem k (JSON_stringify v) ;;
  ts <- now ;;
  BC_postMessage (sync (key_name k) ts).

(** function readObj(k, fallback = {}) *)
Definition readObj {A} (k : Key A) (fallback : A) : M A := read k fallback.

(** function setSession(user) *)
Definition setSession (user : option User.t) : M unit :=
  sessionStorage_setItem (JSON_stringify user) ;;
  BC_postMessage (auth (option_map User.id user)).

(** function getSession(): the parse is not guarded, so it may throw. *)
Definition getSession : M (completion (option User.t)) :=
  stored <- sessionStorage_getItem ;;
  ret (JSON_parse (or_else stored (Encoded None))).

(** function clearSession() *)
Definition clearSession : M unit :=
  sessionStorage_removeItem ;;
  BC_postMessage auth_logout.

(** The statement run when the module is loaded:
    if (!localStorage.getItem(KEYS.defaults)) write(KEYS.defaults, ...) *)
Definition init : M unit :=
  stored <- localStorage_getItem KEYS.defaults ;;
  if negb (truthy stored) then write KEYS.defaults (Defaults.mk 6) else ret tt.

(** function registerUser({ email, name, role }) *)
Definition registerUser (email name role : option string) : M (Result User.t) :=
  users <- read KEYS.users [] ;;
  match email, name with
  | Some email, Some name =>
      if negb (truthy email) || negb (truthy name)
      then ret (Error "Name and email required")
      else if existsb (fun u => toLowerCase (User.email u) =? toLowerCase email) users
      then ret (Error "Email already registered")
      else
        id <- uid "u_" ;;
        createdAt <- now ;;
        let u := User.mk id (toLowerCase email) name role createdAt in
        write KEYS.users (users ++ [u]) ;;
        ret (Ok u)
  | _, _ => ret (Error "Name and email required")
  end.

(** function loginUser(email) *)
Definition loginUser (email : option string) : M (Result User.t) :=
  users <- read KEYS.users [] ;;
  match find (fun x => toLowerCase (User.email x) =? toLowerCase (or_else email "")) users with
  | None => ret (Error "User not found. Register first.")
  | Some u =>
      setSession (Some u) ;;
      ret (Ok u)
  end.

(** function registerOrGetUserByEmail(email, name = 'Unknown', role = 'customer') *)
Definition registerOrGetUserByEmail (email name role : option string) : M User.t :=
  users <- read KEYS.users [] ;;
  match find (fun x => toLowerCase (User.email x) =? toLowerCase (or_else email "")) users with
  | Some u => ret u
  | None =>
      id <- uid "u_" ;;
      createdAt <- now ;;
      let u := User.mk id (toLowerCase (or_else email "")) (nullish name "Unknown")
                       (Some (nullish role "customer")) createdAt in
      write KEYS.users (users ++ [u]) ;;
      ret u
  end.

(** function addLead(referrerId, email, notes) *)
Definition addLead (referrerId email notes : option string) : M Lead.t :=
  leads <- read KEYS.leads [] ;;
  id <- uid "l_" ;;
  createdAt <- now ;;
  let lead := Lead.mk id referrerId (toLowerCase (or_else email "")) notes "new"
                      createdAt None in
  write KEYS.leads (lead :: leads) ;;
  ret lead.

Definition fresh_stages : list Stage.t :=
  [ Stage.mk "foundation" "Foundation" false;
    Stage.mk "framing" "Framing" false;
    Stage.mk "roof" "Roof" false;
    Stage.mk "finishing" "Finishing" false ].

(** function addProject(customerId, payload) *)
Definition addProject (customerId : string) (payload : Payload.t) : M Project.t :=
  projects <- read KEYS.projects [] ;;
  defaults <- readObj KEYS.defaults (Defaults.mk 6) ;;
  id <- uid "p_" ;;
  createdAt <- now ;;
  let p := Project.mk
             id
             customerId
             createdAt
             (or_else (Payload.location payload) "—")
             (or_else (Payload.plot payload) 0%Z)
             (or_else (Payload.budget payload) 0%Z)
             (or_else (Payload.materials payload) "Standard")
             (or_else (Payload.timeline payload) 12%Z)
             "pending"
             false
             None
             (or_null (Payload.referrerId payload))
             (nullish (Payload.commissionPercent payload)
                      (Defaults.defaultCommission defaults))
             fresh_stages in
  write KEYS.projects (p :: projects) ;;
  ret p.

(** The statement both [updateProject] and [toggleStage] end with:
    if (p.stages.every(st => st.done)) p.status = 'completed';
    ([updateProject] also tests [p.stages &&], which holds of every array). *)
Definition complete_when_done (p : Project.t) : Project.t :=
  if forallb Stage.done (Project.stages p)
  then Project.set_status "completed" p else p.

(** const s = p.stages.find(st => st.key === stageKey);
    if (s) s.done = !s.done; *)
Definition flip_stage (stageKey : string) (p : Project.t) : Project.t :=
  match find (fun st => Stage.key st =? stageKey) (Project.stages p) with
  | Some _ =>
      Project.set_stages
        (assign_first (fun st => Stage.key st =? stageKey) Stage.flip
                      (Project.stages p)) p
  | None => p
  end.

(** function updateProject(projectId, changes = {}) *)
Definition updateProject (projectId : string) (changes : Changes.t)
  : M (option Project.t) :=
  projects <- read KEYS.projects [] ;;
  match find (fun x => Project.id x =? projectId) projects with
  | None => ret None
  | Some p =>
      let p := Object_assign p changes in
      let p := complete_when_done p in
      write KEYS.projects
            (assign_first (fun x => Project.id x =? projectId) (fun _ => p) projects) ;;
      ret (Some p)
  end.

(** function toggleStage(projectId, stageKey) *)
Definition toggleStage (projectId stageKey : string) : M (option Project.t) :=
  projects <- read KEYS.projects [] ;;
  match find (fun x => Project.id x =? projectId) projects with
  | None => ret None
  | Some p =>
      let p := flip_stage stageKey p in
      let p := complete_when_done p in
      write KEYS.projects
            (assign_first (fun x => Project.id x =? projectId) (fun _ => p) projects) ;;
      ret (Some p)
  end.

(** function convertLeadToProject(leadId, customerName, budget) *)
Definition convertLeadToProject (leadId : string) (customerName : option string)
    (budget : option Z) : M (Result Project.t) :=
  leads <- read KEYS.leads [] ;;
  match find (fun l => Lead.id l =? leadId) leads with
  | None => ret (Error "Lead not found")
  | Some lead =>
      cust <- registerOrGetUserByEmail (Some (Lead.email lead)) customerName
                                       (Some "customer") ;;
      project <- addProject (User.id cust)
                   (Payload.mk (Some "(from lead)") None budget (Some "TBD")
                               (Some 12%Z) (Lead.referrerId lead) None) ;;
      write KEYS.leads
            (assign_first (fun l => Lead.id l =? leadId)
                          (Lead.convert (Project.id project)) leads) ;;
      ret (Ok project)
  end.

(** function writeDefaults(obj) *)
Definition writeDefaults (obj : Defaults.t) : M unit := write KEYS.defaults obj.

(** function clearAll() *)
Definition clearAll : M unit :=
  localStorage_removeItem KEYS.users ;;
  localStorage_removeItem KEYS.projects ;;
  localStorage_removeItem KEYS.leads ;;
  localStorage_removeItem KEYS.defaults ;;
  sessionStorage_removeItem ;;
  BC_postMessage cleared.

(** function seedDemo() *)
Definition seedDemo : M unit :=
  users <- read KEYS.users [] ;;
  if negb (length users =? 0)%nat then ret tt
  else
    i1 <- uid "u_" ;; t1 <- now ;;
    let u1 := User.mk i1 "alice@ref.com" "Alice Referrer" (Some "referrer") t1 in
    i2 <- uid "u_" ;; t2 <- now ;;
    let u2 := User.mk i2 "bob@admin.com" "Bob Admin" (Some "admin") t2 in
    i3 <- uid "u_" ;; t3 <- now ;;
    let u3 := User.mk i3 "carl@cust.com" "Carl Customer" (Some "customer") t3 in
    write KEYS.users [u1; u2; u3] ;;
    i4 <- uid "l_" ;; t4 <- now ;;
    write KEYS.leads
          [Lead.mk i4 (Some (User.id u1)) "lead1@example.com"
                   (Some "Interested in 3BHK") "new" t4 None] ;;
    i5 <- uid "p_" ;; t5 <- now ;;
    write KEYS.projects
          [Project.mk i5 (User.id u3) t5 "Greenhill Estate" 120%Z 42000%Z "Premium"
                      16%Z "pending" false None (Some (User.id u1)) 7%Z
                      [ Stage.mk "foundation" "Foundation" true;
                        Stage.mk "framing" "Framing" false;
                        Stage.mk "roof" "Roof" false;
                        Stage.mk "finishing" "Finishing" false ]].

(* ------------------------------------------------------------------ *)
(** ** Running the program *)

(** A browser in which nothing was stored yet. *)
Definition blank (random date : nat -> string) : World :=
  mkWorld (mkLocal None None None None) None [] random date 0.

(** The world right after [data.js] was loaded in a blank browser. *)
Definition loaded (random date : nat -> string) : World :=
  snd (init (blank random date)).

(** Calls the presentation layer can make on [CRCData] (the raw [write]
    left out: it can store anything). *)
Inductive call : Type :=
| call_registerUser (email name role : option string)
| call_loginUser (email : option string)
| call_registerOrGetUserByEmail (email name role : option string)
| call_addLead (referrerId email notes : option string)
| call_addProject (customerId : string) (payload : Payload.t)
| call_updateProject (projectId : string) (changes : Changes.t)
| call_toggleStage (projectId stageKey : string)
| call_convertLeadToProject (leadId : string) (customerName : option string)
                            (budget : option Z)
| call_writeDefaults (obj : Defaults.t)
| call_setSession (user : option User.t)
| call_clearSession
| call_clearAll
| call_seedDemo.

Definition exec (c : call) (w : World) : World :=
  match c with
  | call_registerUser e n r => snd (registerUser e n r w)
  | call_loginUser e => snd (loginUser e w)
  | call_registerOrGetUserByEmail e n r => snd (registerOrGetUserByEmail e n r w)
  | call_addLead r e n => snd (addLead r e n w)
  | call_addProject c p => snd (addProject c p w)
  | call_updateProject i c => snd (updateProject i c w)
  | call_toggleStage i k => snd (toggleStage i k w)
  | call_convertLeadToProject i n b => snd (convertLeadToProject i n b w)
  | call_writeDefaults o => snd (writeDefaults o w)
  | call_setSession u => snd (setSession u w)
  | call_clearSession => snd (clearSession w)
  | call_clearAll => snd (clearAll w)
  | call_seedDemo => snd (seedDemo w)
  end.

(** The states the program can be in. *)
Inductive reachable : World -> Prop :=
| reachable_loaded random date : reachable (loaded random date)
| reachable_exec c w : reachable w -> reachable (exec c w).

(** The projects, leads and users as the program reads them. *)
Definition projects_of (w : World) : list Project.t := fst (read KEYS.projects [] w).
Definition leads_of (w : World) : list Lead.t := fst (read KEYS.leads [] w).
Definition users_of (w : World) : list User.t := fst (read KEYS.users [] w).

Definition all_done (p : Project.t) : bool := forallb Stage.done (Project.stages p).

(* ------------------------------------------------------------------ *)
(** ** Vocabulary of the statements *)

(** The tests the program hands to [find] and [some]. *)
Abbreviation by_id projectId := (fun x : Project.t => Project.id x =? projectId).
Abbreviation by_key stageKey := (fun st : Stage.t => Stage.key st =? stageKey).
Abbreviation by_lead_id leadId := (fun l : Lead.t => Lead.id l =? leadId).
Abbreviation by_email email :=
  (fun x : User.t => toLowerCase (User.email x) =? toLowerCase email).

(** An argument counts as missing when it is undefined or the empty string. *)
Definition missing (x : option string) : Prop := truthy x = false.

(** Some stored user has the given e-mail address, letter case aside. *)
Definition email_taken (email : string) (users : list User.t) : Prop :=
  exists u, In u users /\ toLowerCase (User.email u) = toLowerCase email.

(** The completion rule as the program maintains it: a project whose
    stages are all done has the status [completed]. *)
Definition completion_rule (p : Project.t) : Prop :=
  all_done p = true -> Project.status p = "completed".

(** How [registerOrGetUserByEmail] resolves the customer of a lead: the
    first stored user with the lead's e-mail (letter case aside), the users
    left as they are, or else a new user appended to them. *)
Definition customer_resolved (email : string) (customerName : option string)
    (before : list User.t) (cust : User.t) (after : list User.t) : Prop :=
  (forall u, find (by_email email) before = Some u -> cust = u /\ after = before) /\
  (find (by_email email) before = None ->
   after = before ++ [cust] /\
   User.email cust = toLowerCase email /\
   User.name cust = nullish customerName "Unknown" /\
   User.role cust = Some "customer").

(** The stored users have pairwise different e-mail addresses, letter
    case aside. *)
Definition emails_unique (users : list User.t) : Prop :=
  NoDup (map (fun u => toLowerCase (User.email u)) users).

(** A user as the program creates them: the e-mail address in lower case
    and an id that starts with [u_]. *)
Definition user_normal (u : User.t) : Prop :=
  toLowerCase (User.email u) = User.email u /\
  String.prefix "u_" (User.id u) = true.

(** How one call may change the stored users: not at all, by one new user
    appended whose e-mail nobody had, or by replacing them wholesale with
    users that are unique and normal. *)
Definition users_step (before after : list User.t) : Prop :=
  after = before \/
  (exists u, after = before ++ [u] /\
             find (by_email (User.email u)) before = None /\ user_normal u) \/
  (emails_unique after /\ Forall user_normal after).

(** A lead points at a project exactly when it is converted. *)
Definition lead_consistent (l : Lead.t) : Prop :=
  Lead.convertedProjectId l <> None <-> Lead.status l = "converted".

(** Everything but the stored projects and the channel. *)
Definition same_but_projects (w w' : World) : Prop :=
  crc_users_v3 (local w') = crc_users_v3 (local w) /\
  crc_leads_v3 (local w') = crc_leads_v3 (local w) /\
  crc_defaults_v3 (local w') = crc_defaults_v3 (local w) /\
  session w' = session w.

(* ------------------------------------------------------------------ *)
(** ** Sample runs *)

(** Oracles that hand out the decimal numerals 0, 1, 2, ... *)
Definition sample_random (n : nat) : string :=
  NilEmpty.string_of_uint (Nat.to_uint n).
Definition sample_date (n : nat) : string :=
  ("t" ++ sample_random n)%string.

(** A freshly loaded browser after [seedDemo]: the users [u_1], [u_3] and
    [u_5], the lead [l_8] and the project [p_11]. *)
Definition demo : World := exec call_seedDemo (loaded sample_random sample_date).

Definition seeded_project : Project.t :=
  Project.mk "p_11" "u_5" "t12" "Greenhill Estate" 120%Z 42000%Z "Premium" 16%Z
             "pending" false None (Some "u_1") 7%Z
             [ Stage.mk "foundation" "Foundation" true;
               Stage.mk "framing" "Framing" false;
               Stage.mk "roof" "Roof" false;
               Stage.mk "finishing" "Finishing" false ].

Definition sample_stages (foundation framing roof finishing : bool) : list Stage.t :=
  [ Stage.mk "foundation" "Foundation" foundation;
    Stage.mk "framing" "Framing" framing;
    Stage.mk "roof" "Roof" roof;
    Stage.mk "finishing" "Finishing" finishing ].

Definition seeded_lead : Lead.t :=
  Lead.mk "l_8" (Some "u_1") "lead1@example.com" (Some "Interested in 3BHK") "new"
          "t9" None.

(** The administrator completes the three open stages of [p_11] ... *)
Definition finished : World :=
  exec (call_toggleStage "p_11" "finishing")
    (exec (call_toggleStage "p_11" "roof")
       (exec (call_toggleStage "p_11" "framing") demo)).

(** ... and then reopens the first one. *)
Definition reopened : World := exec (call_toggleStage "p_11" "foundation") finished.

(** The lead [l_8] converted once. *)
Definition converted_once : World :=
  exec (call_convertLeadToProject "l_8" (Some "Lee") (Some 10000%Z)) demo.

(** A lead filed with the empty string as referrer id: it gets the id [l_14]. *)
Definition blank_referrer : World :=
  exec (call_addLead (Some "") (Some "x@y.com") None) demo.

(** A browser whose stored defaults and session texts do not parse. *)
Definition garbled : World :=
  mkWorld (mkLocal None None None (Some Malformed)) (Some Malformed) []
          sample_random sample_date 0.

(** The changes the approve button passes to [updateProject]. *)
Definition approve : Changes.t :=
  Changes.mk None None None None None None None None (Some "approved") (Some true)
             None None None None.

Definition finished_project : Project.t :=
  Project.set_status "completed"
    (Project.set_stages (sample_stages true true true true) seeded_project).

Definition alice : User.t :=
  User.mk "u_1" "alice@ref.com" "Alice Referrer" (Some "referrer") "t2".
Definition bob : User.t :=
  User.mk "u_3" "bob@admin.com" "Bob Admin" (Some "admin") "t4".

(** A browser whose stored projects text does not parse. *)
Definition corrupted : World :=
  mkWorld (mkLocal None (Some Malformed) None (Some Empty)) None []
          sample_random sample_date 0.

(* ------------------------------------------------------------------ *)
(** ** Facts about strings and arrays *)

Lemma lower_ascii_idem (c : ascii) : lower_ascii (lower_ascii c) = lower_ascii c.
Proof.
  destruct c as [[] [] [] [] [] [] [] []]; reflexivity.
Qed.

Lemma toLowerCase_idem (s : string) : toLowerCase (toLowerCase s) = toLowerCase s.
Proof.
  induction s as [|c r IH]; simpl.
  - reflexivity.
  - now rewrite lower_ascii_idem, IH.
Qed.

Lemma truthy_string_nonempty (s : string) : truthy s = true <-> s <> "".
Proof.
  unfold truthy, Truthy_string. destruct (String.eqb_spec s ""); simpl; split;
    congruence.
Qed.

Section Arrays.
Context {A : Type}.
Variable test : A -> bool.

Lemma find_app_none (l1 l2 : list A) :
  find test l1 = None -> find test (l1 ++ l2) = find test l2.
Proof.
  induction l1 as [|x r IH]; simpl; [easy|].
  destruct (test x); [discriminate | exact IH].
Qed.

Lemma existsb_false_find (l : list A) :
  existsb test l = false -> find test l = None.
Proof.
  induction l as [|x r IH]; simpl; [easy|].
  destruct (test x); simpl; [discriminate | exact IH].
Qed.

Lemma find_some_existsb (l : list A) (x : A) :
  find test l = Some x -> existsb test l = true.
Proof.
  intros H. apply find_some in H. apply existsb_exists. now exists x.
Qed.

Lemma assign_first_none (f : A -> A) (l : list A) :
  find test l = None -> assign_first test f l = l.
Proof.
  induction l as [|x r IH]; simpl; [easy|].
  destruct (test x); [discriminate|]. intros H. now rewrite IH.
Qed.

(** The element [find] returns is the only one [assign_first] touches. *)
Lemma assign_first_split (f : A -> A) (l : list A) (x : A) :
  find test l = Some x ->
  exists before after,
    l = before ++ x :: after /\
    find test before = None /\
    assign_first test f l = before ++ f x :: after.
Proof.
  induction l as [|y r IH]; simpl; [discriminate|].
  destruct (test y) eqn:Ey.
  - intros [= ->]. exists [], r. now simpl.
  - intros H. destruct (IH H) as (b & a & -> & Hb & Hr).
    exists (y :: b), a. simpl. rewrite Ey, Hr. now repeat split.
Qed.

Lemma find_assign_first (f : A -> A) (l : list A) (x : A) :
  find test l = Some x -> test (f x) = true ->
  find test (assign_first test f l) = Some (f x).
Proof.
  induction l as [|y r IH]; simpl; [discriminate|].
  destruct (test y) eqn:Ey.
  - intros [= ->] Hf. simpl. now rewrite Hf.
  - intros H Hf. simpl. rewrite Ey. now apply IH.
Qed.

Lemma assign_first_twice (f g : A -> A) (l : list A) :
  (forall x, test x = true -> test (f x) = true) ->
  assign_first test g (assign_first test f l)
  = assign_first test (fun x => g (f x)) l.
Proof.
  intros Hf. induction l as [|y r IH]; simpl; [easy|].
  destruct (test y) eqn:Ey; simpl.
  - now rewrite (Hf y Ey).
  - now rewrite Ey, IH.
Qed.

Lemma assign_first_found (f g : A -> A) (l : list A) (x : A) :
  find test l = Some x -> f x = g x ->
  assign_first test f l = assign_first test g l.
Proof.
  induction l as [|y r IH]; simpl; [easy|].
  destruct (test y).
  - now intros [= ->] ->.
  - intros H E. now rewrite IH.
Qed.

Lemma assign_first_id (f : A -> A) (l : list A) :
  (forall x, f x = x) -> assign_first test f l = l.
Proof.
  intros Hf. induction l as [|y r IH]; simpl; [easy|].
  destruct (test y); [now rewrite Hf | now rewrite IH].
Qed.

Lemma Forall_assign_first (P : A -> Prop) (f : A -> A) (l : list A) :
  Forall P l -> (forall x, In x l -> test x = true -> P (f x)) ->
  Forall P (assign_first test f l).
Proof.
  induction l as [|y r IH]; simpl; [easy|].
  intros H Hf. inversion H as [|? ? Hy Hr]; subst.
  destruct (test y) eqn:Ey.
  - constructor; [apply Hf; auto | exact Hr].
  - constructor; [exact Hy | apply IH; auto].
Qed.
End Arrays.

Lemma Stage_flip_flip (s : Stage.t) : Stage.flip (Stage.flip s) = s.
Proof.
  destruct s as [k l d]. unfold Stage.flip. simpl. now rewrite negb_involutive.
Qed.

(* ------------------------------------------------------------------ *)
(** ** Facts about the storage layer *)

Lemma bind_run {A B} (m : M A) (k : A -> M B) (w : World) :
  bind m k w = k (fst (m w)) (snd (m w)).
Proof. unfold bind. now destruct (m w). Qed.

(** What [read] returns, by what is stored under the key. *)
Lemma read_cases {A} (k : Key A) (fallback : A) (w : World) :
  read k fallback w =
  (match getItem k (local w) with
   | Some (Encoded v) => v
   | _ => fallback
   end, w).
Proof.
  unfold read, bind, localStorage_getItem, ret. simpl.
  destruct (getItem k (local w)) as [[| |v]|]; reflexivity.
Qed.

Lemma read_world {A} (k : Key A) (fallback : A) (w : World) :
  snd (read k fallback w) = w.
Proof. now rewrite read_cases. Qed.

Lemma write_world {A} (k : Key A) (v : A) (w : World) :
  write k v w =
  (tt, mkWorld (setItem k (Encoded v) (local w)) (session w)
               (channel w ++ [sync (key_name k) (Date_toISOString w (calls w))])
               (Math_random w) (Date_toISOString w) (S (calls w))).
Proof. reflexivity. Qed.

(** CLAIM C9: [read] is total and never raises: when nothing is stored
    under the key, or the stored text fails to deserialize ([JSON.parse]
    throws), it returns the caller's fallback value and leaves the world as
    it was. *)
Theorem read_fallback_on_absent_or_corrupt :
  forall (A : Type) (k : Key A) (fallback : A) (w : World),
    getItem k (local w) = None \/
    (exists t e, getItem k (local w) = Some t /\ JSON_parse t = Throw e) ->
    read k fallback w = (fallback, w).
Proof.
  intros A k fallback w H. rewrite read_cases.
  destruct H as [-> | (t & e & -> & Ht)]; [reflexivity|].
  destruct t; simpl in Ht; [reflexivity | reflexivity | discriminate].
Qed.

(* ------------------------------------------------------------------ *)
(** ** Users and sessions *)

Lemma email_taken_existsb (email : string) (users : list User.t) :
  email_taken email users <->
  existsb (fun u => toLowerCase (User.email u) =? toLowerCase email) users = true.
Proof.
  unfold email_taken. rewrite existsb_exists.
  split; intros (u & Hin & H); exists u; split; auto.
  - now apply String.eqb_eq.
  - now apply String.eqb_eq in H.
Qed.

Lemma registerUser_missing (email name role : option string) (w : World) :
  missing email \/ missing name ->
  registerUser email name role w = (Error "Name and email required", w).
Proof.
  unfold missing, registerUser, bind. rewrite read_cases.
  destruct email as [e|], name as [n|]; simpl; try reflexivity.
  intros [H | H]; change (truthy (Some ?x)) with (truthy x) in H;
    rewrite H; simpl; [reflexivity|].
  now rewrite orb_true_r.
Qed.

Lemma registerUser_taken (email name : string) (role : option string) (w : World) :
  ~ missing (Some email) -> ~ missing (Some name) ->
  email_taken email (users_of w) ->
  registerUser (Some email) (Some name) role w = (Error "Email already registered", w).
Proof.
  unfold missing, users_of. intros He Hn Ht.
  apply email_taken_existsb in Ht.
  unfold registerUser, bind. rewrite read_cases in *. simpl in *.
  apply not_false_is_true in He, Hn.
  change (truthy email = true) in He. change (truthy name = true) in Hn.
  rewrite He, Hn. simpl. now rewrite Ht.
Qed.

Lemma registerUser_fresh (email name : string) (role : option string) (w : World) :
  ~ missing (Some email) -> ~ missing (Some name) ->
  ~ email_taken email (users_of w) ->
  let u := User.mk ("u_" ++ Math_random w (calls w))%string (toLowerCase email) name role
                   (Date_toISOString w (S (calls w))) in
  exists w',
    registerUser (Some email) (Some name) role w = (Ok u, w') /\
    getItem KEYS.users (local w') = Some (Encoded (users_of w ++ [u])) /\
    crc_projects_v3 (local w') = crc_projects_v3 (local w) /\
    crc_leads_v3 (local w') = crc_leads_v3 (local w) /\
    crc_defaults_v3 (local w') = crc_defaults_v3 (local w) /\
    session w' = session w.
Proof.
  unfold missing, users_of. intros He Hn Ht.
  rewrite email_taken_existsb in Ht. apply not_true_is_false in Ht.
  unfold registerUser, bind. rewrite read_cases in *. simpl in *.
  apply not_false_is_true in He, Hn.
  change (truthy email = true) in He. change (truthy name = true) in Hn.
  rewrite He, Hn. simpl. rewrite Ht. simpl. eexists. split; [reflexivity|]. simpl. now repeat split.
Qed.

(** CLAIM C3: [registerUser] answers with the validation error when the
    e-mail or the name is missing, with the conflict error when a stored user
    already has that e-mail (letter case aside), the world untouched in both
    cases; otherwise it appends exactly one new user to the stored users and
    returns that user. *)
Theorem registerUser_outcomes :
  forall (email name role : option string) (w : World),
    (missing email \/ missing name ->
     registerUser email name role w = (Error "Name and email required", w)) /\
    (forall e n, email = Some e -> name = Some n ->
       ~ missing email -> ~ missing name ->
       email_taken e (users_of w) ->
       registerUser email name role w = (Error "Email already registered", w)) /\
    (forall e n, email = Some e -> name = Some n ->
       ~ missing email -> ~ missing name ->
       ~ email_taken e (users_of w) ->
       exists u w',
         registerUser email name role w = (Ok u, w') /\
         users_of w' = users_of w ++ [u] /\
         User.email u = toLowerCase e /\ User.name u = n /\ User.role u = role).
Proof.
  intros email name role w. split; [|split].
  - apply registerUser_missing.
  - intros e n -> -> He Hn Ht. now apply registerUser_taken.
  - intros e n -> -> He Hn Ht.
    destruct (registerUser_fresh e n role w He Hn Ht) as (w' & Hr & Hu & _).
    eexists; exists w'. split; [exact Hr|].
    unfold users_of at 1. rewrite read_cases. rewrite Hu. simpl. now repeat split.
Qed.

Lemma setSession_world (user : option User.t) (w : World) :
  setSession user w =
  (tt, mkWorld (local w) (Some (Encoded user))
               (channel w ++ [auth (option_map User.id user)])
               (Math_random w) (Date_toISOString w) (calls w)).
Proof. reflexivity. Qed.

(** CLAIM C4: when [registerUser] succeeds, a [loginUser] with the same
    e-mail right after it succeeds too, and the session then holds a user
    with the id of the user [registerUser] returned. *)
Theorem login_after_register :
  forall (email name role : option string) (w w1 : World) (u : User.t),
    registerUser email name role w = (Ok u, w1) ->
    exists u' w2,
      loginUser email w1 = (Ok u', w2) /\
      fst (getSession w2) = Normal (Some u') /\
      User.id u' = User.id u.
Proof.
  intros email name role w w1 u H.
  destruct email as [e|]; [|discriminate H].
  destruct name as [n|]; [|now destruct (read KEYS.users [] w)].
  revert H. unfold registerUser, bind. rewrite read_cases.
  destruct (negb (truthy e) || negb (truthy n)) eqn:Hmiss; [discriminate|].
  set (users := match getItem KEYS.users (local w) with
                | Some (Encoded v) => v | _ => [] end).
  destruct (existsb _ users) eqn:Hex; [discriminate|].
  simpl. intros [= <- <-].
  apply orb_false_elim in Hmiss as [He _]. apply negb_false_iff in He.
  exists (User.mk ("u_" ++ Math_random w (calls w))%string (toLowerCase e) n role
                  (Date_toISOString w (S (calls w)))).
  eexists. unfold loginUser, bind. rewrite read_cases. simpl.
  change (or_else (Some e) "") with (if truthy e then e else "").
  rewrite He.
  rewrite (find_app_none _ _ _ (existsb_false_find _ _ Hex)). simpl.
  rewrite toLowerCase_idem, String.eqb_refl. simpl.
  now repeat split.
Qed.

(* ------------------------------------------------------------------ *)
(** ** Projects and stages *)

Lemma projects_of_slot (w : World) :
  projects_of w =
  match crc_projects_v3 (local w) with Some (Encoded v) => v | _ => [] end.
Proof. unfold projects_of. now rewrite read_cases. Qed.

Lemma complete_when_done_id (p : Project.t) :
  Project.id (complete_when_done p) = Project.id p.
Proof. unfold complete_when_done. now destruct (forallb _ _). Qed.

Lemma complete_when_done_stages (p : Project.t) :
  Project.stages (complete_when_done p) = Project.stages p.
Proof. unfold complete_when_done. now destruct (forallb _ _). Qed.

Lemma complete_when_done_status (p : Project.t) :
  Project.status (complete_when_done p) =
  if all_done (complete_when_done p) then "completed" else Project.status p.
Proof.
  unfold all_done. rewrite complete_when_done_stages.
  unfold complete_when_done. now destruct (forallb _ _).
Qed.

Lemma complete_when_done_rule (p : Project.t) :
  all_done (complete_when_done p) = true ->
  Project.status (complete_when_done p) = "completed".
Proof. intros H. now rewrite complete_when_done_status, H. Qed.

Lemma flip_stage_id (stageKey : string) (p : Project.t) :
  Project.id (flip_stage stageKey p) = Project.id p.
Proof. unfold flip_stage. now destruct (find _ _). Qed.

Lemma flip_stage_status (stageKey : string) (p : Project.t) :
  Project.status (flip_stage stageKey p) = Project.status p.
Proof. unfold flip_stage. now destruct (find _ _). Qed.

Lemma flip_stage_stages (stageKey : string) (p : Project.t) :
  Project.stages (flip_stage stageKey p) =
  assign_first (by_key stageKey) Stage.flip (Project.stages p).
Proof.
  unfold flip_stage. destruct (find _ _) eqn:E; [reflexivity|].
  now rewrite assign_first_none.
Qed.

(** Only [status] and [stages] can differ between [p] and the project
    [toggleStage] makes of it. *)
Lemma toggled_fields (stageKey : string) (p : Project.t) :
  let p' := complete_when_done (flip_stage stageKey p) in
  p' = Project.set_status (Project.status p')
         (Project.set_stages (Project.stages p') p).
Proof.
  destruct p. unfold complete_when_done, flip_stage. simpl.
  destruct (find _ _); simpl; destruct (forallb _ _); reflexivity.
Qed.

Lemma toggleStage_absent (projectId stageKey : string) (w : World) :
  find (by_id projectId) (projects_of w) = None ->
  toggleStage projectId stageKey w = (None, w).
Proof.
  unfold projects_of, toggleStage, bind. rewrite read_cases. simpl.
  now intros ->.
Qed.

Lemma toggleStage_found (projectId stageKey : string) (w : World) (p : Project.t) :
  find (by_id projectId) (projects_of w) = Some p ->
  let p' := complete_when_done (flip_stage stageKey p) in
  toggleStage projectId stageKey w =
  (Some p', snd (write KEYS.projects
                   (assign_first (by_id projectId) (fun _ => p') (projects_of w)) w)).
Proof.
  unfold projects_of, toggleStage, bind. rewrite read_cases. simpl.
  now intros ->.
Qed.

Lemma projects_of_write (v : list Project.t) (w : World) :
  projects_of (snd (write KEYS.projects v w)) = v.
Proof. reflexivity. Qed.

(** CLAIM C2 (amended): [toggleStage] returns null and leaves the world as
    it was when no project has the id.  When the project exists, it writes
    the collection back with that project replaced by the one it returns,
    whose status follows the completion rule and whose other fields, stages
    aside, are as before; if no stage has the key the stages are as before,
    otherwise exactly the first stage with the key has its done flag
    flipped. *)
Theorem toggleStage_outcomes :
  forall (projectId stageKey : string) (w : World),
    (find (by_id projectId) (projects_of w) = None ->
     toggleStage projectId stageKey w = (None, w)) /\
    (forall p, find (by_id projectId) (projects_of w) = Some p ->
       exists p' w',
         toggleStage projectId stageKey w = (Some p', w') /\
         projects_of w' = assign_first (by_id projectId) (fun _ => p') (projects_of w) /\
         channel w' = channel w ++ [sync "crc_projects_v3" (Date_toISOString w (calls w))] /\
         Project.status p' = (if all_done p' then "completed" else Project.status p) /\
         p' = Project.set_status (Project.status p')
                (Project.set_stages (Project.stages p') p) /\
         (find (by_key stageKey) (Project.stages p) = None ->
          Project.stages p' = Project.stages p) /\
         (forall s, find (by_key stageKey) (Project.stages p) = Some s ->
            exists before after,
              Project.stages p = before ++ s :: after /\
              find (by_key stageKey) before = None /\
              Project.stages p' = before ++ Stage.flip s :: after)).
Proof.
  intros projectId stageKey w. split; [apply toggleStage_absent|].
  intros p Hp. eexists; eexists. split; [apply (toggleStage_found _ _ _ _ Hp)|].
  split; [reflexivity|]. split; [reflexivity|].
  split; [|split; [apply toggled_fields|split]].
  - rewrite complete_when_done_status. now rewrite flip_stage_status.
  - intros Hs. rewrite complete_when_done_stages, flip_stage_stages.
    now apply assign_first_none.
  - intros s Hs. rewrite complete_when_done_stages, flip_stage_stages.
    destruct (assign_first_split _ Stage.flip _ _ Hs) as (b & a & H1 & H2 & H3).
    now exists b, a.
Qed.

(** CLAIM C5: for a stored project and a stage key it has, two calls of
    [toggleStage] with that id and key both return the project, and after
    the second one its stages, and with them the done flag of the stage
    with that key, are what they were at the start. *)
Theorem toggleStage_twice :
  forall (projectId stageKey : string) (w : World) (p : Project.t) (s : Stage.t),
    find (by_id projectId) (projects_of w) = Some p ->
    find (by_key stageKey) (Project.stages p) = Some s ->
    exists p1 w1 p2 w2,
      toggleStage projectId stageKey w = (Some p1, w1) /\
      toggleStage projectId stageKey w1 = (Some p2, w2) /\
      find (by_id projectId) (projects_of w2) = Some p2 /\
      option_map Stage.done (find (by_key stageKey) (Project.stages p1))
        = Some (negb (Stage.done s)) /\
      option_map Stage.done (find (by_key stageKey) (Project.stages p2))
        = Some (Stage.done s) /\
      Project.stages p2 = Project.stages p.
Proof.
  intros projectId stageKey w p s Hp Hs.
  set (p1 := complete_when_done (flip_stage stageKey p)).
  assert (Hid : forall q, Project.id q = Project.id p -> by_id projectId q = true).
  { intros q ->. now apply find_some in Hp. }
  assert (Hkey : forall x, by_key stageKey x = true ->
                           by_key stageKey (Stage.flip x) = true) by (intros x H; exact H).
  assert (H1 : Project.id p1 = Project.id p).
  { unfold p1. now rewrite complete_when_done_id, flip_stage_id. }
  pose proof (toggleStage_found projectId stageKey w p Hp) as T1. cbv zeta in T1.
  fold p1 in T1.
  set (w1 := snd (write KEYS.projects
                    (assign_first (by_id projectId) (fun _ => p1) (projects_of w)) w)) in *.
  assert (Hp1 : find (by_id projectId) (projects_of w1) = Some p1).
  { unfold w1. rewrite projects_of_write.
    apply (find_assign_first _ (fun _ => p1) _ _ Hp). now apply Hid. }
  set (p2 := complete_when_done (flip_stage stageKey p1)).
  pose proof (toggleStage_found projectId stageKey w1 p1 Hp1) as T2. cbv zeta in T2.
  fold p2 in T2.
  assert (S1 : Project.stages p1 = assign_first (by_key stageKey) Stage.flip (Project.stages p)).
  { unfold p1. now rewrite complete_when_done_stages, flip_stage_stages. }
  assert (S2 : Project.stages p2 = Project.stages p).
  { unfold p2. rewrite complete_when_done_stages, flip_stage_stages, S1.
    rewrite (assign_first_twice _ _ _ _ Hkey).
    apply assign_first_id. apply Stage_flip_flip. }
  exists p1, w1, p2. eexists. split; [exact T1|]. split; [exact T2|].
  split; [|split; [|split]].
  - rewrite projects_of_write.
    apply (find_assign_first _ (fun _ => p2) _ _ Hp1). apply Hid.
    unfold p2. now rewrite complete_when_done_id, flip_stage_id.
  - rewrite S1. rewrite (find_assign_first _ Stage.flip _ _ Hs); [reflexivity|].
    apply Hkey. now apply find_some in Hs.
  - now rewrite S2, Hs.
  - exact S2.
Qed.

Ltac run_frame :=
  unfold bind, ret; rewrite ?read_cases; simpl;
  repeat match goal with
         | |- context [match ?x with _ => _ end] => destruct x; simpl
         | |- context [if ?b then _ else _] => destruct b; simpl
         end;
  reflexivity.

Lemma registerUser_projects e n r w :
  crc_projects_v3 (local (snd (registerUser e n r w))) = crc_projects_v3 (local w).
Proof. unfold registerUser. run_frame. Qed.

Lemma loginUser_projects e w :
  crc_projects_v3 (local (snd (loginUser e w))) = crc_projects_v3 (local w).
Proof. unfold loginUser. run_frame. Qed.

Lemma registerOrGetUserByEmail_projects e n r w :
  crc_projects_v3 (local (snd (registerOrGetUserByEmail e n r w)))
  = crc_projects_v3 (local w).
Proof. unfold registerOrGetUserByEmail. run_frame. Qed.

Lemma addProject_projects (customerId : string) (payload : Payload.t) (w : World) :
  projects_of (snd (addProject customerId payload w))
  = fst (addProject customerId payload w) :: projects_of w.
Proof. reflexivity. Qed.

Lemma addProject_stages (customerId : string) (payload : Payload.t) (w : World) :
  Project.stages (fst (addProject customerId payload w)) = fresh_stages.
Proof. reflexivity. Qed.

Lemma projects_of_same_slot (w w' : World) :
  crc_projects_v3 (local w') = crc_projects_v3 (local w) ->
  projects_of w' = projects_of w.
Proof. intros H. now rewrite !projects_of_slot, H. Qed.

Lemma updateProject_projects (projectId : string) (changes : Changes.t) (w : World) :
  projects_of (snd (updateProject projectId changes w)) =
  assign_first (by_id projectId)
    (fun p => complete_when_done (Object_assign p changes)) (projects_of w).
Proof.
  rewrite !projects_of_slot. unfold updateProject, bind. rewrite read_cases. simpl.
  set (l := match crc_projects_v3 (local w) with Some (Encoded v) => v | _ => [] end).
  destruct (find _ l) as [p|] eqn:E; simpl.
  - now apply (assign_first_found _ _ _ _ p).
  - rewrite assign_first_none by exact E. reflexivity.
Qed.

Lemma toggleStage_projects (projectId stageKey : string) (w : World) :
  projects_of (snd (toggleStage projectId stageKey w)) =
  assign_first (by_id projectId)
    (fun p => complete_when_done (flip_stage stageKey p)) (projects_of w).
Proof.
  rewrite !projects_of_slot. unfold toggleStage, bind. rewrite read_cases. simpl.
  set (l := match crc_projects_v3 (local w) with Some (Encoded v) => v | _ => [] end).
  destruct (find _ l) as [p|] eqn:E; simpl.
  - now apply (assign_first_found _ _ _ _ p).
  - rewrite assign_first_none by exact E. reflexivity.
Qed.

Lemma leads_of_slot (w : World) :
  leads_of w = match crc_leads_v3 (local w) with Some (Encoded v) => v | _ => [] end.
Proof. unfold leads_of. now rewrite read_cases. Qed.

Lemma users_of_slot (w : World) :
  users_of w = match crc_users_v3 (local w) with Some (Encoded v) => v | _ => [] end.
Proof. unfold users_of. now rewrite read_cases. Qed.

(** [convertLeadToProject] on a stored lead, step by step. *)
Lemma convertLeadToProject_found (leadId : string) (customerName : option string)
    (budget : option Z) (w : World) (lead : Lead.t) :
  find (fun l => Lead.id l =? leadId) (leads_of w) = Some lead ->
  let r1 := registerOrGetUserByEmail (Some (Lead.email lead)) customerName
                                     (Some "customer") w in
  let r2 := addProject (User.id (fst r1))
              (Payload.mk (Some "(from lead)") None budget (Some "TBD") (Some 12%Z)
                          (Lead.referrerId lead) None) (snd r1) in
  convertLeadToProject leadId customerName budget w =
  (Ok (fst r2),
   snd (write KEYS.leads
          (assign_first (fun l => Lead.id l =? leadId)
                        (Lead.convert (Project.id (fst r2))) (leads_of w))
          (snd r2))).
Proof.
  rewrite leads_of_slot. intros H. cbv zeta.
  unfold convertLeadToProject, bind at 1. rewrite read_cases. cbv beta iota.
  change (getItem KEYS.leads (local w)) with (crc_leads_v3 (local w)).
  rewrite H. rewrite !bind_run. reflexivity.
Qed.

Lemma convertLeadToProject_absent (leadId : string) (customerName : option string)
    (budget : option Z) (w : World) :
  find (fun l => Lead.id l =? leadId) (leads_of w) = None ->
  convertLeadToProject leadId customerName budget w = (Error "Lead not found", w).
Proof.
  rewrite leads_of_slot. intros H.
  unfold convertLeadToProject, bind. rewrite read_cases. cbv beta iota.
  change (getItem KEYS.leads (local w)) with (crc_leads_v3 (local w)).
  now rewrite H.
Qed.

Lemma convertLeadToProject_projects (leadId : string) (customerName : option string)
    (budget : option Z) (w : World) :
  projects_of (snd (convertLeadToProject leadId customerName budget w)) = projects_of w \/
  exists p, Project.stages p = fresh_stages /\
    projects_of (snd (convertLeadToProject leadId customerName budget w))
    = p :: projects_of w.
Proof.
  destruct (find (fun l => Lead.id l =? leadId) (leads_of w)) as [lead|] eqn:E.
  - right. rewrite (convertLeadToProject_found _ customerName budget _ _ E).
    cbv zeta.
    set (r1 := registerOrGetUserByEmail _ _ _ w).
    set (r2 := addProject _ _ (snd r1)).
    exists (fst r2). split; [apply addProject_stages|].
    transitivity (projects_of (snd r2)).
    + apply projects_of_same_slot. reflexivity.
    + unfold r2. rewrite addProject_projects. f_equal.
      apply projects_of_same_slot, registerOrGetUserByEmail_projects.
  - left. now rewrite (convertLeadToProject_absent _ _ _ _ E).
Qed.

Lemma seedDemo_projects (w : World) :
  projects_of (snd (seedDemo w)) = projects_of w \/
  exists p, all_done p = false /\ projects_of (snd (seedDemo w)) = [p].
Proof.
  unfold seedDemo. rewrite bind_run, read_cases. cbv beta. simpl fst. simpl snd.
  destruct (negb _); [now left|]. right. cbn.
  eexists. split; [|reflexivity]. reflexivity.
Qed.

Lemma exec_keeps_completion_rule (c : call) (w : World) :
  Forall completion_rule (projects_of w) ->
  Forall completion_rule (projects_of (exec c w)).
Proof.
  intros H. destruct c; cbn [exec].
  - now rewrite (projects_of_same_slot _ _ (registerUser_projects _ _ _ _)).
  - now rewrite (projects_of_same_slot _ _ (loginUser_projects _ _)).
  - now rewrite (projects_of_same_slot _ _ (registerOrGetUserByEmail_projects _ _ _ _)).
  - exact H.
  - rewrite addProject_projects. constructor; [|exact H].
    unfold completion_rule, all_done. rewrite addProject_stages. discriminate.
  - rewrite updateProject_projects. apply Forall_assign_first; [exact H|].
    intros x _ _. exact (complete_when_done_rule _).
  - rewrite toggleStage_projects. apply Forall_assign_first; [exact H|].
    intros x _ _. exact (complete_when_done_rule _).
  - destruct (convertLeadToProject_projects leadId customerName budget w)
      as [-> | (p & Hp & ->)]; [exact H|].
    constructor; [|exact H].
    unfold completion_rule, all_done. rewrite Hp. discriminate.
  - exact H.
  - exact H.
  - exact H.
  - constructor.
  - destruct (seedDemo_projects w) as [-> | (p & Hp & ->)]; [exact H|].
    constructor; [|constructor]. unfold completion_rule. now rewrite Hp.
Qed.

(** CLAIM C1 (amended): in every state reachable through the operations
    of [CRCData], every stored project whose stages are all done has the
    status [completed]. *)
Theorem all_done_implies_completed :
  forall w : World,
    reachable w ->
    forall p, In p (projects_of w) ->
      all_done p = true -> Project.status p = "completed".
Proof.
  intros w Hw.
  assert (H : Forall completion_rule (projects_of w)).
  { induction Hw as [random date | c w Hw IH].
    - constructor.
    - now apply exec_keeps_completion_rule. }
  intros p Hp. rewrite Forall_forall in H. exact (H p Hp).
Qed.

(* ------------------------------------------------------------------ *)
(** ** Leads *)

Lemma or_else_empty (e : string) : or_else (Some e) "" = e.
Proof.
  unfold or_else, truthy, Truthy_string.
  destruct (String.eqb_spec e ""); simpl; congruence.
Qed.

Lemma registerOrGetUserByEmail_known (email : string) (name role : option string)
    (w : World) (u : User.t) :
  find (by_email email) (users_of w) = Some u ->
  registerOrGetUserByEmail (Some email) name role w = (u, w).
Proof.
  rewrite users_of_slot. intros H.
  unfold registerOrGetUserByEmail. rewrite bind_run, read_cases. cbv beta.
  cbn [fst snd]. rewrite or_else_empty.
  change (getItem KEYS.users (local w)) with (crc_users_v3 (local w)).
  now rewrite H.
Qed.

Lemma registerOrGetUserByEmail_new (email : string) (name role : option string)
    (w : World) :
  find (by_email email) (users_of w) = None ->
  let u := User.mk ("u_" ++ Math_random w (calls w))%string (toLowerCase email)
                   (nullish name "Unknown") (Some (nullish role "customer"))
                   (Date_toISOString w (S (calls w))) in
  registerOrGetUserByEmail (Some email) name role w
  = (u, snd (write KEYS.users (users_of w ++ [u]) (snd (now (snd (uid "u_" w)))))).
Proof.
  rewrite users_of_slot. intros H.
  unfold registerOrGetUserByEmail. rewrite bind_run, read_cases. cbv beta.
  cbn [fst snd]. rewrite or_else_empty.
  change (getItem KEYS.users (local w)) with (crc_users_v3 (local w)).
  now rewrite H.
Qed.

Lemma registerOrGetUserByEmail_leads e n r w :
  crc_leads_v3 (local (snd (registerOrGetUserByEmail e n r w))) = crc_leads_v3 (local w).
Proof. unfold registerOrGetUserByEmail. run_frame. Qed.

Lemma registerOrGetUserByEmail_channel e n r w :
  exists more, channel (snd (registerOrGetUserByEmail e n r w)) = channel w ++ more.
Proof.
  unfold registerOrGetUserByEmail. rewrite bind_run, read_cases. cbv beta.
  cbn [fst snd]. destruct (find _ _).
  - exists []. simpl. now rewrite app_nil_r.
  - eexists. reflexivity.
Qed.

Lemma registerOrGetUserByEmail_resolves (email : string) (name : option string)
    (w : World) :
  customer_resolved email name (users_of w)
    (fst (registerOrGetUserByEmail (Some email) name (Some "customer") w))
    (users_of (snd (registerOrGetUserByEmail (Some email) name (Some "customer") w))).
Proof.
  split.
  - intros u Hu. now rewrite (registerOrGetUserByEmail_known _ _ _ _ _ Hu).
  - intros Hn. rewrite (registerOrGetUserByEmail_new _ name (Some "customer") _ Hn).
    cbv zeta. now repeat split.
Qed.

Lemma addProject_users c p w :
  users_of (snd (addProject c p w)) = users_of w.
Proof. reflexivity. Qed.

Lemma addProject_leads c p w :
  leads_of (snd (addProject c p w)) = leads_of w.
Proof. reflexivity. Qed.

Lemma leads_of_same_slot (w w' : World) :
  crc_leads_v3 (local w') = crc_leads_v3 (local w) -> leads_of w' = leads_of w.
Proof. intros H. now rewrite !leads_of_slot, H. Qed.

(** Everything [convertLeadToProject] does with a stored lead. *)
Lemma convertLeadToProject_effects (leadId : string) (customerName : option string)
    (budget : option Z) (w : World) (lead : Lead.t) :
  find (by_lead_id leadId) (leads_of w) = Some lead ->
  exists cust project w',
    convertLeadToProject leadId customerName budget w = (Ok project, w') /\
    customer_resolved (Lead.email lead) customerName (users_of w) cust (users_of w') /\
    Project.customerId project = User.id cust /\
    Project.referrerId project = or_null (Lead.referrerId lead) /\
    Project.budget project = or_else budget 0%Z /\
    projects_of w' = project :: projects_of w /\
    leads_of w' = assign_first (by_lead_id leadId)
                    (Lead.convert (Project.id project)) (leads_of w) /\
    find (by_lead_id leadId) (leads_of w') = Some (Lead.convert (Project.id project) lead) /\
    exists earlier t1 t2,
      channel w' = earlier ++ [sync "crc_projects_v3" t1; sync "crc_leads_v3" t2].
Proof.
  intros Hl. rewrite (convertLeadToProject_found _ customerName budget _ _ Hl). cbv zeta.
  set (r1 := registerOrGetUserByEmail _ _ _ w).
  set (r2 := addProject _ _ (snd r1)).
  exists (fst r1), (fst r2). eexists. split; [reflexivity|].
  assert (Hp : projects_of (snd r2) = fst r2 :: projects_of w).
  { unfold r2. rewrite addProject_projects. f_equal.
    apply projects_of_same_slot, registerOrGetUserByEmail_projects. }
  split; [apply registerOrGetUserByEmail_resolves|].
  split; [reflexivity|]. split; [reflexivity|]. split; [reflexivity|].
  split; [exact Hp|]. split; [reflexivity|]. split.
  - change (leads_of (snd (write KEYS.leads ?l ?x))) with l.
    apply (find_assign_first _ _ _ _ Hl). now apply find_some in Hl.
  - destruct (registerOrGetUserByEmail_channel (Some (Lead.email lead)) customerName
                (Some "customer") w) as (more & Hm).
    fold r1 in Hm. exists (channel w ++ more). eexists; eexists.
    simpl. rewrite Hm. rewrite <- app_assoc. reflexivity.
Qed.

(** CLAIM C6 (amended): [convertLeadToProject] answers with the not-found
    error, the world untouched, when no lead has the id.  Otherwise it
    resolves or creates the customer from the lead's e-mail, creates a
    project for that customer whose referrerId is the lead's referrerId when
    that is a non-empty string and null otherwise, marks the lead converted
    with the new project's id, writes the projects and the leads, and returns
    the new project. *)
Theorem convertLeadToProject_outcomes :
  forall (leadId : string) (customerName : option string) (budget : option Z)
         (w : World),
    (find (by_lead_id leadId) (leads_of w) = None ->
     convertLeadToProject leadId customerName budget w = (Error "Lead not found", w)) /\
    (forall lead, find (by_lead_id leadId) (leads_of w) = Some lead ->
       exists cust project w',
         convertLeadToProject leadId customerName budget w = (Ok project, w') /\
         customer_resolved (Lead.email lead) customerName (users_of w) cust (users_of w') /\
         Project.customerId project = User.id cust /\
         (truthy (Lead.referrerId lead) = true ->
          Project.referrerId project = Lead.referrerId lead) /\
         (truthy (Lead.referrerId lead) = false ->
          Project.referrerId project = None) /\
         projects_of w' = project :: projects_of w /\
         leads_of w' = assign_first (by_lead_id leadId)
                         (Lead.convert (Project.id project)) (leads_of w) /\
         (exists lead',
            find (by_lead_id leadId) (leads_of w') = Some lead' /\
            Lead.status lead' = "converted" /\
            Lead.convertedProjectId lead' = Some (Project.id project)) /\
         (exists earlier t1 t2,
            channel w' = earlier ++ [sync "crc_projects_v3" t1; sync "crc_leads_v3" t2])).
Proof.
  intros leadId customerName budget w. split; [apply convertLeadToProject_absent|].
  intros lead Hl.
  destruct (convertLeadToProject_effects leadId customerName budget w lead Hl)
    as (cust & project & w' & Hr & Hc & Hcid & Href & _ & Hp & Hls & Hf & Hch).
  exists cust, project, w'. repeat (split; [assumption|]).
  split; [|split; [|split; [exact Hp|split; [exact Hls|split; [|exact Hch]]]]].
  - intros Ht. rewrite Href. destruct (Lead.referrerId lead) as [r|]; [|reflexivity].
    simpl. change (truthy (Some r)) with (truthy r) in Ht. now rewrite Ht.
  - intros Ht. rewrite Href. destruct (Lead.referrerId lead) as [r|]; [|reflexivity].
    simpl. change (truthy (Some r)) with (truthy r) in Ht. now rewrite Ht.
  - eexists. split; [exact Hf|]. now split.
Qed.

(** CLAIM C7 (amended): calling [convertLeadToProject] on a lead that is
    already converted is not rejected: it succeeds, adds one more project to
    the stored projects, and leaves the lead converted, now pointing at the
    new project. *)
Theorem convertLeadToProject_again :
  forall (leadId : string) (customerName : option string) (budget : option Z)
         (w : World) (lead : Lead.t),
    find (by_lead_id leadId) (leads_of w) = Some lead ->
    Lead.status lead = "converted" ->
    exists project w' lead',
      convertLeadToProject leadId customerName budget w = (Ok project, w') /\
      projects_of w' = project :: projects_of w /\
      find (by_lead_id leadId) (leads_of w') = Some lead' /\
      Lead.status lead' = "converted" /\
      Lead.convertedProjectId lead' = Some (Project.id project).
Proof.
  intros leadId customerName budget w lead Hl _.
  destruct (convertLeadToProject_effects leadId customerName budget w lead Hl)
    as (cust & project & w' & Hr & _ & _ & _ & _ & Hp & _ & Hf & _).
  exists project, w'. eexists. split; [exact Hr|]. split; [exact Hp|].
  split; [exact Hf|]. now split.
Qed.

(* ------------------------------------------------------------------ *)
(** ** Project defaults *)

Lemma or_else_or_null {A} `{Truthy A} (x : option A) (d : A) :
  or_else (or_null x) d = or_else x d.
Proof.
  destruct x as [a|]; simpl; [|reflexivity].
  destruct (truthy a) eqn:E; simpl; [now rewrite E | reflexivity].
Qed.

Lemma addProject_commission (customerId : string) (payload : Payload.t) (w : World) :
  Project.commissionPercent (fst (addProject customerId payload w))
  = nullish (Payload.commissionPercent payload)
            (Defaults.defaultCommission (fst (readObj KEYS.defaults (Defaults.mk 6) w))).
Proof. reflexivity. Qed.

(** CLAIM C8: a project created by [addProject] from a payload without
    commissionPercent gets the defaultCommission that is stored at the time
    of the call; after [writeDefaults] a project created that way gets the
    new value, while the projects that were stored before are all still
    there exactly as they were. *)
Theorem addProject_default_commission :
  forall (customerId : string) (payload : Payload.t) (w : World),
    Payload.commissionPercent payload = None ->
    Project.commissionPercent (fst (addProject customerId payload w))
      = Defaults.defaultCommission (fst (readObj KEYS.defaults (Defaults.mk 6) w)) /\
    (forall d, getItem KEYS.defaults (local w) = Some (Encoded d) ->
       Project.commissionPercent (fst (addProject customerId payload w))
         = Defaults.defaultCommission d) /\
    (forall d',
       let w1 := snd (writeDefaults d' w) in
       Project.commissionPercent (fst (addProject customerId payload w1))
         = Defaults.defaultCommission d' /\
       projects_of w1 = projects_of w /\
       projects_of (snd (addProject customerId payload w1))
         = fst (addProject customerId payload w1) :: projects_of w).
Proof.
  intros customerId payload w Hc. split; [|split].
  - now rewrite addProject_commission, Hc.
  - intros d Hd. rewrite addProject_commission, Hc.
    unfold readObj. rewrite read_cases. now rewrite Hd.
  - intros d' w1. split; [|split].
    + now rewrite addProject_commission, Hc.
    + reflexivity.
    + reflexivity.
Qed.

(** CLAIM C10: [addProject] treats a location, plot, budget, materials or
    timeline that is given but falsy as if it were left out (the call does
    the same as with those fields dropped from the payload, the defaults
    being a dash, 0, 0, Standard and 12), whereas a commissionPercent that
    is given is kept whatever it is, 0 included, and only one left out falls
    back to the stored defaultCommission. *)
Theorem addProject_falsy_fields :
  forall (customerId : string) (payload : Payload.t) (w : World),
    let p := fst (addProject customerId payload w) in
    addProject customerId payload w
      = addProject customerId (Payload.drop_falsy payload) w /\
    (truthy (Payload.location payload) = false -> Project.location p = "—") /\
    (truthy (Payload.plot payload) = false -> Project.plot p = 0%Z) /\
    (truthy (Payload.budget payload) = false -> Project.budget p = 0%Z) /\
    (truthy (Payload.materials payload) = false -> Project.materials p = "Standard") /\
    (truthy (Payload.timeline payload) = false -> Project.timeline p = 12%Z) /\
    (forall n, Payload.commissionPercent payload = Some n ->
       Project.commissionPercent p = n) /\
    (Payload.commissionPercent payload = None ->
       Project.commissionPercent p
       = Defaults.defaultCommission (fst (readObj KEYS.defaults (Defaults.mk 6) w))).
Proof.
  intros customerId payload w p.
  assert (F : forall A (T : Truthy A) (x : option A) (d : A),
             truthy x = false -> or_else x d = d).
  { intros A T [a|] d H; [|reflexivity]. simpl.
    change (truthy (Some a)) with (truthy a) in H. now rewrite H. }
  split; [|repeat split; try (intros H; exact (F _ _ _ _ H))].
  - unfold addProject. rewrite !bind_run. cbn [fst snd Payload.drop_falsy
      Payload.location Payload.plot Payload.budget Payload.materials
      Payload.timeline Payload.referrerId Payload.commissionPercent].
    now rewrite !or_else_or_null.
  - intros n Hn. subst p. now rewrite addProject_commission, Hn.
  - intros Hn. subst p. now rewrite addProject_commission, Hn.
Qed.

(* ------------------------------------------------------------------ *)
(** ** The statements on the sample runs *)

Lemma reachable_demo : reachable demo.
Proof. unfold demo. apply reachable_exec, reachable_loaded. Defined.

Lemma reachable_finished : reachable finished.
Proof. unfold finished. do 3 apply reachable_exec. exact reachable_demo. Defined.

(** Counterexample to C1 as stated: once every stage of [p_11] was done
    and one of them is reopened, the project is stored with the status
    [completed] although not all of its stages are done. *)
Lemma reopened_stage_breaks_biconditional :
  reachable reopened /\
  exists p, In p (projects_of reopened) /\
    Project.status p = "completed" /\ all_done p = false /\
    ~ (all_done p = true <-> Project.status p = "completed").
Proof.
  split; [apply reachable_exec, reachable_finished|].
  exists (Project.set_status "completed"
            (Project.set_stages (sample_stages false true true true) seeded_project)).
  split; [vm_compute; left; reflexivity|].
  split; [reflexivity|]. split; [reflexivity|].
  intros [_ H]. specialize (H eq_refl). discriminate H.
Qed.

Lemma all_done_implies_completed_witness :
  exists p, In p (projects_of finished) /\ all_done p = true /\
            Project.status p = "completed".
Proof.
  exists (Project.set_status "completed"
            (Project.set_stages (sample_stages true true true true) seeded_project)).
  assert (Hin : In (Project.set_status "completed"
            (Project.set_stages (sample_stages true true true true) seeded_project))
                   (projects_of finished))
    by (vm_compute; left; reflexivity).
  split; [exact Hin|]. split; [reflexivity|].
  apply (all_done_implies_completed finished reachable_finished _ Hin). reflexivity.
Defined.

(** Counterexample to C2 as stated: [p_11] has no stage with the key
    [plumbing], yet [toggleStage] does not return null; it returns the
    project and posts the write of the collection on the channel. *)
Lemma toggleStage_unknown_stage_returns_project :
  find (by_id "p_11") (projects_of demo) = Some seeded_project /\
  find (by_key "plumbing") (Project.stages seeded_project) = None /\
  fst (toggleStage "p_11" "plumbing" demo) = Some seeded_project /\
  channel (snd (toggleStage "p_11" "plumbing" demo))
    = channel demo ++ [sync "crc_projects_v3" "t14"] /\
  toggleStage "p_11" "plumbing" demo <> (None, demo).
Proof.
  split; [vm_compute; reflexivity|]. split; [reflexivity|].
  split; [vm_compute; reflexivity|]. split; [vm_compute; reflexivity|].
  intros H. apply (f_equal fst) in H. vm_compute in H. discriminate H.
Qed.

Lemma toggleStage_outcomes_witness :
  toggleStage "p_0" "roof" demo = (None, demo) /\
  exists p' w',
    toggleStage "p_11" "plumbing" demo = (Some p', w') /\
    Project.stages p' = Project.stages seeded_project.
Proof.
  split.
  - apply (proj1 (toggleStage_outcomes "p_0" "roof" demo)). vm_compute. reflexivity.
  - destruct (proj2 (toggleStage_outcomes "p_11" "plumbing" demo) seeded_project)
      as (p' & w' & Hr & _ & _ & _ & _ & Hs & _).
    + vm_compute. reflexivity.
    + exists p', w'. split; [exact Hr|]. apply Hs. reflexivity.
Defined.

Lemma toggleStage_twice_witness :
  exists p1 w1 p2 w2,
    toggleStage "p_11" "framing" demo = (Some p1, w1) /\
    toggleStage "p_11" "framing" w1 = (Some p2, w2) /\
    find (by_id "p_11") (projects_of w2) = Some p2 /\
    option_map Stage.done (find (by_key "framing") (Project.stages p1)) = Some true /\
    option_map Stage.done (find (by_key "framing") (Project.stages p2)) = Some false /\
    Project.stages p2 = Project.stages seeded_project.
Proof.
  apply (toggleStage_twice "p_11" "framing" demo seeded_project
           (Stage.mk "framing" "Framing" false)).
  - vm_compute. reflexivity.
  - reflexivity.
Defined.

Lemma read_fallback_witness :
  read KEYS.projects [] corrupted = ([], corrupted) /\
  read KEYS.users [] corrupted = ([], corrupted) /\
  readObj KEYS.defaults (Defaults.mk 6) corrupted = (Defaults.mk 6, corrupted).
Proof.
  split; [|split].
  - apply read_fallback_on_absent_or_corrupt. right.
    exists Malformed, "SyntaxError". split; reflexivity.
  - apply read_fallback_on_absent_or_corrupt. left. reflexivity.
  - apply read_fallback_on_absent_or_corrupt. right.
    exists Empty, "SyntaxError". split; reflexivity.
Defined.

Lemma registerUser_outcomes_witness :
  registerUser (Some "dana@example.com") (Some "") None demo
    = (Error "Name and email required", demo) /\
  registerUser (Some "Alice@Ref.com") (Some "Alice") None demo
    = (Error "Email already registered", demo) /\
  exists u w',
    registerUser (Some "Dana@Example.com") (Some "Dana") (Some "referrer") demo
      = (Ok u, w') /\
    users_of w' = users_of demo ++ [u] /\
    User.email u = "dana@example.com".
Proof.
  split; [|split].
  - apply (proj1 (registerUser_outcomes _ _ _ demo)). right. reflexivity.
  - apply (proj1 (proj2 (registerUser_outcomes _ _ _ demo)) _ _ eq_refl eq_refl).
    + discriminate.
    + discriminate.
    + apply email_taken_existsb. vm_compute. reflexivity.
  - destruct (proj2 (proj2 (registerUser_outcomes (Some "Dana@Example.com")
                (Some "Dana") (Some "referrer") demo)) _ _ eq_refl eq_refl)
      as (u & w' & Hr & Hu & He & _).
    + discriminate.
    + discriminate.
    + rewrite email_taken_existsb. vm_compute. discriminate.
    + exists u, w'. now repeat split.
Defined.

Lemma login_after_register_witness :
  exists u' w2,
    loginUser (Some "Dana@Example.com")
      (snd (registerUser (Some "Dana@Example.com") (Some "Dana") (Some "referrer") demo))
      = (Ok u', w2) /\
    fst (getSession w2) = Normal (Some u') /\
    User.id u' = "u_14".
Proof.
  apply (login_after_register (Some "Dana@Example.com") (Some "Dana") (Some "referrer")
           demo _ (User.mk "u_14" "dana@example.com" "Dana" (Some "referrer") "t15")).
  vm_compute. reflexivity.
Defined.

(** Counterexample to C6 as stated: the lead [l_14] carries the empty
    string as referrerId, and the project made from it carries null. *)
Lemma blank_referrer_not_carried_over :
  exists lead project,
    find (by_lead_id "l_14") (leads_of blank_referrer) = Some lead /\
    fst (convertLeadToProject "l_14" None None blank_referrer) = Ok project /\
    Lead.referrerId lead = Some "" /\
    Project.referrerId project = None /\
    Project.referrerId project <> Lead.referrerId lead.
Proof.
  exists (Lead.mk "l_14" (Some "") "x@y.com" None "new" "t15" None).
  exists (Project.mk "p_20" "u_17" "t21" "(from lead)" 0%Z 0%Z "TBD" 12%Z "pending"
                     false None None 6%Z fresh_stages).
  split; [vm_compute; reflexivity|]. split; [vm_compute; reflexivity|].
  split; [reflexivity|]. split; [reflexivity|]. discriminate.
Qed.

Lemma convertLeadToProject_outcomes_witness :
  convertLeadToProject "l_0" None None demo = (Error "Lead not found", demo) /\
  exists project w',
    convertLeadToProject "l_8" (Some "Lee") (Some 10000%Z) demo = (Ok project, w') /\
    Project.referrerId project = Some "u_1" /\
    projects_of w' = project :: projects_of demo.
Proof.
  split.
  - apply (proj1 (convertLeadToProject_outcomes "l_0" None None demo)).
    vm_compute. reflexivity.
  - destruct (proj2 (convertLeadToProject_outcomes "l_8" (Some "Lee") (Some 10000%Z) demo)
                seeded_lead)
      as (cust & project & w' & Hr & _ & _ & Href & _ & Hp & _).
    + vm_compute. reflexivity.
    + exists project, w'. split; [exact Hr|]. split; [|exact Hp].
      apply Href. reflexivity.
Defined.

(** Counterexample to C7 as stated: [l_8] is already converted, and a
    second [convertLeadToProject] on it succeeds, stores a third project and
    moves the lead from the project [p_17] to the project [p_21]. *)
Lemma second_conversion_accepted :
  exists lead project,
    find (by_lead_id "l_8") (leads_of converted_once) = Some lead /\
    Lead.status lead = "converted" /\
    Lead.convertedProjectId lead = Some "p_17" /\
    fst (convertLeadToProject "l_8" (Some "Lee") (Some 10000%Z) converted_once)
      = Ok project /\
    map Project.id (projects_of converted_once) = ["p_17"; "p_11"] /\
    map Project.id
        (projects_of (snd (convertLeadToProject "l_8" (Some "Lee") (Some 10000%Z)
                                                converted_once)))
      = ["p_21"; "p_17"; "p_11"] /\
    map Lead.convertedProjectId
        (leads_of (snd (convertLeadToProject "l_8" (Some "Lee") (Some 10000%Z)
                                             converted_once)))
      = [Some "p_21"].
Proof.
  exists (Lead.convert "p_17" seeded_lead).
  exists (Project.mk "p_21" "u_14" "t22" "(from lead)" 0%Z 10000%Z "TBD" 12%Z "pending"
                     false None (Some "u_1") 6%Z fresh_stages).
  split; [vm_compute; reflexivity|]. split; [reflexivity|]. split; [reflexivity|].
  split; [vm_compute; reflexivity|]. split; [vm_compute; reflexivity|].
  split; vm_compute; reflexivity.
Qed.

Lemma convertLeadToProject_again_witness :
  exists project w' lead',
    convertLeadToProject "l_8" (Some "Lee") (Some 10000%Z) converted_once
      = (Ok project, w') /\
    projects_of w' = project :: projects_of converted_once /\
    find (by_lead_id "l_8") (leads_of w') = Some lead' /\
    Lead.status lead' = "converted" /\
    Lead.convertedProjectId lead' = Some (Project.id project).
Proof.
  apply (convertLeadToProject_again "l_8" (Some "Lee") (Some 10000%Z) converted_once
           (Lead.convert "p_17" seeded_lead)).
  - vm_compute. reflexivity.
  - reflexivity.
Defined.

Lemma addProject_default_commission_witness :
  Project.commissionPercent (fst (addProject "u_5" Payload.empty demo)) = 6%Z /\
  Project.commissionPercent
    (fst (addProject "u_5" Payload.empty (snd (writeDefaults (Defaults.mk 9) demo)))) = 9%Z /\
  projects_of (snd (writeDefaults (Defaults.mk 9) demo)) = projects_of demo.
Proof.
  destruct (addProject_default_commission "u_5" Payload.empty demo eq_refl)
    as (_ & Hd & Hw).
  split.
  - apply (Hd (Defaults.mk 6)). vm_compute. reflexivity.
  - destruct (Hw (Defaults.mk 9)) as (H1 & H2 & _). split; [exact H1 | exact H2].
Defined.

Lemma addProject_falsy_fields_witness :
  let p := fst (addProject "u_5"
                  (Payload.mk (Some "") (Some 0%Z) (Some 0%Z) (Some "") (Some 0%Z)
                              None (Some 0%Z)) demo) in
  Project.location p = "—" /\ Project.plot p = 0%Z /\ Project.budget p = 0%Z /\
  Project.materials p = "Standard" /\ Project.timeline p = 12%Z /\
  Project.commissionPercent p = 0%Z.
Proof.
  intros p.
  destruct (addProject_falsy_fields "u_5"
              (Payload.mk (Some "") (Some 0%Z) (Some 0%Z) (Some "") (Some 0%Z)
                          None (Some 0%Z)) demo)
    as (_ & H1 & H2 & H3 & H4 & H5 & H6 & _).
  split; [apply H1; reflexivity|]. split; [apply H2; reflexivity|].
  split; [apply H3; reflexivity|]. split; [apply H4; reflexivity|].
  split; [apply H5; reflexivity|]. apply H6. reflexivity.
Defined.

(* ------------------------------------------------------------------ *)
(** ** What the stored users always look like *)

Lemma registerOrGetUserByEmail_or_else (email name role : option string) (w : World) :
  registerOrGetUserByEmail email name role w
  = registerOrGetUserByEmail (Some (or_else email "")) name role w.
Proof. unfold registerOrGetUserByEmail. now rewrite or_else_empty. Qed.

Lemma prefix_u (r : string) : String.prefix "u_" ("u_" ++ r)%string = true.
Proof. simpl. now destruct r. Qed.

Lemma registerUser_users_step (e n r : option string) (w : World) :
  users_step (users_of w) (users_of (snd (registerUser e n r w))).
Proof.
  destruct e as [e|]; [|now left; destruct n].
  destruct n as [n|]; [|now left].
  unfold users_step. rewrite !users_of_slot.
  unfold registerUser. rewrite bind_run, read_cases. cbn [fst snd].
  change (getItem KEYS.users (local w)) with (crc_users_v3 (local w)).
  set (users := match crc_users_v3 (local w) with Some (Encoded v) => v | _ => [] end).
  destruct (negb (truthy e) || negb (truthy n)); [now left|].
  destruct (existsb _ users) eqn:Hex; [now left|].
  right; left. eexists. split; [reflexivity|]. split.
  - cbn [User.email]. rewrite toLowerCase_idem. now apply existsb_false_find.
  - split; [apply toLowerCase_idem | apply prefix_u].
Qed.

Lemma registerOrGetUserByEmail_users_step (e n r : option string) (w : World) :
  users_step (users_of w) (users_of (snd (registerOrGetUserByEmail e n r w))).
Proof.
  rewrite registerOrGetUserByEmail_or_else.
  destruct (find (by_email (or_else e "")) (users_of w)) as [u|] eqn:E.
  - left. now rewrite (registerOrGetUserByEmail_known _ _ _ _ _ E).
  - right; left. rewrite (registerOrGetUserByEmail_new _ n r _ E). cbv zeta.
    eexists. split; [reflexivity|]. split.
    + cbn [User.email]. now rewrite toLowerCase_idem.
    + split; [apply toLowerCase_idem | apply prefix_u].
Qed.

Lemma users_of_same_slot (w w' : World) :
  crc_users_v3 (local w') = crc_users_v3 (local w) -> users_of w' = users_of w.
Proof. intros H. now rewrite !users_of_slot, H. Qed.

Lemma convertLeadToProject_users (leadId : string) (customerName : option string)
    (budget : option Z) (w : World) :
  users_of (snd (convertLeadToProject leadId customerName budget w)) = users_of w \/
  exists lead,
    find (by_lead_id leadId) (leads_of w) = Some lead /\
    users_of (snd (convertLeadToProject leadId customerName budget w))
    = users_of (snd (registerOrGetUserByEmail (Some (Lead.email lead)) customerName
                                              (Some "customer") w)).
Proof.
  destruct (find (by_lead_id leadId) (leads_of w)) as [lead|] eqn:E.
  - right. exists lead. split; [reflexivity|].
    now rewrite (convertLeadToProject_found _ customerName budget _ _ E).
  - left. now rewrite (convertLeadToProject_absent _ _ _ _ E).
Qed.

Lemma seedDemo_users_step (w : World) :
  users_step (users_of w) (users_of (snd (seedDemo w))).
Proof.
  unfold seedDemo. rewrite bind_run, read_cases. cbn [fst snd].
  destruct (negb _); [now left|]. right; right. cbn.
  split.
  - unfold emails_unique. cbn. repeat constructor; cbn; intuition discriminate.
  - repeat constructor; cbn; now destruct (Math_random w _).
Qed.

Lemma toggleStage_frame (projectId stageKey : string) (w : World) :
  same_but_projects w (snd (toggleStage projectId stageKey w)).
Proof.
  unfold same_but_projects, toggleStage. rewrite bind_run, read_cases. cbn [fst snd].
  destruct (find _ _); now repeat split.
Qed.

Lemma updateProject_frame (projectId : string) (changes : Changes.t) (w : World) :
  same_but_projects w (snd (updateProject projectId changes w)).
Proof.
  unfold same_but_projects, updateProject. rewrite bind_run, read_cases. cbn [fst snd].
  destruct (find _ _); now repeat split.
Qed.

Lemma addProject_frame (customerId : string) (payload : Payload.t) (w : World) :
  same_but_projects w (snd (addProject customerId payload w)).
Proof. now repeat split. Qed.

Lemma exec_users_step (c : call) (w : World) :
  users_step (users_of w) (users_of (exec c w)).
Proof.
  destruct c; cbn [exec].
  - apply registerUser_users_step.
  - left. apply users_of_same_slot. unfold loginUser. run_frame.
  - apply registerOrGetUserByEmail_users_step.
  - now left.
  - now left.
  - left. apply users_of_same_slot, updateProject_frame.
  - left. apply users_of_same_slot, toggleStage_frame.
  - destruct (convertLeadToProject_users leadId customerName budget w)
      as [-> | (lead & _ & ->)]; [now left|].
    apply registerOrGetUserByEmail_users_step.
  - now left.
  - now left.
  - now left.
  - right; right. split; constructor.
  - apply seedDemo_users_step.
Qed.

Lemma NoDup_snoc {A} (l : list A) (a : A) :
  NoDup l -> ~ In a l -> NoDup (l ++ [a]).
Proof.
  induction l as [|x r IH]; cbn; intros Hd Hn.
  - constructor; [easy | constructor].
  - inversion Hd as [|? ? Hx Hr]; subst. constructor.
    + rewrite in_app_iff. cbn. intuition.
    + apply IH; [exact Hr | intuition].
Qed.

Lemma users_step_keeps (before after : list User.t) :
  users_step before after ->
  emails_unique before /\ Forall user_normal before ->
  emails_unique after /\ Forall user_normal after.
Proof.
  intros [-> | [(u & -> & Hf & Hu) | H]] [Hd Hn]; [now split | | exact H].
  split.
  - unfold emails_unique in *. rewrite map_app. cbn.
    apply NoDup_snoc; [exact Hd|].
    intros Hin. apply in_map_iff in Hin as (x & Hx & Hin).
    pose proof (find_none _ _ Hf x Hin) as Hne. cbv beta in Hne.
    rewrite Hx, String.eqb_refl in Hne. discriminate Hne.
  - apply Forall_app. split; [exact Hn | now constructor].
Qed.

Lemma reachable_users (w : World) :
  reachable w -> emails_unique (users_of w) /\ Forall user_normal (users_of w).
Proof.
  induction 1 as [random date | c w Hw IH].
  - split; constructor.
  - exact (users_step_keeps _ _ (exec_users_step c w) IH).
Qed.

(** PROPERTY X1: in every state reachable through the operations of
    [CRCData], no two stored users have the same e-mail address, letter
    case aside. *)
Theorem users_emails_unique :
  forall w : World, reachable w -> emails_unique (users_of w).
Proof. intros w Hw. exact (proj1 (reachable_users w Hw)). Qed.

(** PROPERTY X2: in every state reachable through the operations of
    [CRCData], every stored user has a lower-case e-mail address and an id
    that starts with [u_]. *)
Theorem users_normal :
  forall w : World,
    reachable w ->
    forall u, In u (users_of w) ->
      toLowerCase (User.email u) = User.email u /\
      String.prefix "u_" (User.id u) = true.
Proof.
  intros w Hw u Hu. pose proof (proj2 (reachable_users w Hw)) as H.
  rewrite Forall_forall in H. exact (H u Hu).
Qed.

(* ------------------------------------------------------------------ *)
(** ** What the stored leads always look like *)

Lemma seedDemo_leads (w : World) :
  leads_of (snd (seedDemo w)) = leads_of w \/
  exists l, lead_consistent l /\ leads_of (snd (seedDemo w)) = [l].
Proof.
  unfold seedDemo. rewrite bind_run, read_cases. cbn [fst snd].
  destruct (negb _); [now left|]. right. cbn.
  eexists. split; [|reflexivity]. split; cbn; [intuition | discriminate].
Qed.

Lemma convertLeadToProject_leads (leadId : string) (customerName : option string)
    (budget : option Z) (w : World) :
  exists projectId,
    leads_of (snd (convertLeadToProject leadId customerName budget w))
    = assign_first (by_lead_id leadId) (Lead.convert projectId) (leads_of w).
Proof.
  destruct (find (by_lead_id leadId) (leads_of w)) as [lead|] eqn:E.
  - destruct (convertLeadToProject_effects leadId customerName budget w lead E)
      as (cust & project & w' & Hr & _ & _ & _ & _ & _ & Hl & _).
    exists (Project.id project). now rewrite Hr.
  - exists "". rewrite (convertLeadToProject_absent _ _ _ _ E).
    now rewrite assign_first_none.
Qed.

Lemma exec_keeps_lead_consistent (c : call) (w : World) :
  Forall lead_consistent (leads_of w) ->
  Forall lead_consistent (leads_of (exec c w)).
Proof.
  intros H. destruct c; cbn [exec].
  - rewrite (leads_of_same_slot w); [exact H|]. unfold registerUser. run_frame.
  - rewrite (leads_of_same_slot w); [exact H|]. unfold loginUser. run_frame.
  - now rewrite (leads_of_same_slot _ _ (registerOrGetUserByEmail_leads _ _ _ _)).
  - change (Forall lead_consistent (fst (addLead referrerId email notes w) :: leads_of w)).
    constructor; [|exact H]. split; cbn; [intuition | discriminate].
  - exact H.
  - now rewrite (leads_of_same_slot _ _ (proj1 (proj2 (updateProject_frame _ _ _)))).
  - now rewrite (leads_of_same_slot _ _ (proj1 (proj2 (toggleStage_frame _ _ _)))).
  - destruct (convertLeadToProject_leads leadId customerName budget w) as (pid & ->).
    apply Forall_assign_first; [exact H|].
    intros l _ _. split; cbn; [reflexivity | discriminate].
  - exact H.
  - exact H.
  - exact H.
  - constructor.
  - destruct (seedDemo_leads w) as [-> | (l & Hl & ->)]; [exact H|].
    now constructor.
Qed.

(** PROPERTY X3: in every state reachable through the operations of
    [CRCData], a stored lead has a convertedProjectId exactly when its
    status is [converted]. *)
Theorem leads_consistent :
  forall w : World,
    reachable w ->
    forall l, In l (leads_of w) ->
      (Lead.convertedProjectId l <> None <-> Lead.status l = "converted").
Proof.
  intros w Hw.
  assert (H : Forall lead_consistent (leads_of w)).
  { induction Hw as [random date | c w Hw IH].
    - constructor.
    - now apply exec_keeps_lead_consistent. }
  intros l Hl. rewrite Forall_forall in H. exact (H l Hl).
Qed.

(* ------------------------------------------------------------------ *)
(** ** Registering and logging in *)

Lemma find_by_email_appended (email : string) (users : list User.t) (u : User.t) :
  find (by_email email) users = None ->
  User.email u = toLowerCase email ->
  find (by_email email) (users ++ [u]) = Some u.
Proof.
  intros Hn He. rewrite (find_app_none _ _ _ Hn). cbn.
  now rewrite He, toLowerCase_idem, String.eqb_refl.
Qed.

(** PROPERTY X4: [registerOrGetUserByEmail] is idempotent: a second call
    with the same e-mail, whatever name and role it is given, returns the
    user the first call returned and changes nothing. *)
Theorem registerOrGetUserByEmail_idempotent :
  forall (email name role name' role' : option string) (w : World),
    let r := registerOrGetUserByEmail email name role w in
    registerOrGetUserByEmail email name' role' (snd r) = (fst r, snd r).
Proof.
  intros email name role name' role' w. cbv zeta.
  rewrite !(registerOrGetUserByEmail_or_else email).
  set (e := or_else email "").
  destruct (find (by_email e) (users_of w)) as [u|] eqn:E.
  - rewrite (registerOrGetUserByEmail_known _ name role _ _ E). cbn [fst snd].
    exact (registerOrGetUserByEmail_known _ _ _ _ _ E).
  - rewrite (registerOrGetUserByEmail_new _ name role _ E). cbv zeta. cbn [fst snd].
    apply registerOrGetUserByEmail_known.
    change (users_of (snd (write KEYS.users ?l ?x))) with l.
    now apply find_by_email_appended.
Qed.

Lemma loginUser_found (email : string) (w : World) (u : User.t) :
  find (by_email email) (users_of w) = Some u ->
  loginUser (Some email) w = (Ok u, snd (setSession (Some u) w)).
Proof.
  rewrite users_of_slot. intros H.
  unfold loginUser. rewrite bind_run, read_cases. cbn [fst snd].
  rewrite or_else_empty.
  change (getItem KEYS.users (local w)) with (crc_users_v3 (local w)).
  now rewrite H.
Qed.

Lemma loginUser_or_else (email : option string) (w : World) :
  loginUser email w = loginUser (Some (or_else email "")) w.
Proof. unfold loginUser. now rewrite or_else_empty. Qed.

(** PROPERTY X5: [loginUser] looks the e-mail up letter case aside, an
    e-mail left out counting as the empty string.  With no such user it
    returns the not-found error and changes nothing, the session included;
    otherwise it returns the first such user, stores it as the session,
    announces its id on the channel and leaves [localStorage] alone. *)
Theorem loginUser_outcomes :
  forall (email : option string) (w : World),
    (find (by_email (or_else email "")) (users_of w) = None ->
     loginUser email w = (Error "User not found. Register first.", w)) /\
    (forall u, find (by_email (or_else email "")) (users_of w) = Some u ->
       exists w',
         loginUser email w = (Ok u, w') /\
         fst (getSession w') = Normal (Some u) /\
         local w' = local w /\
         channel w' = channel w ++ [auth (Some (User.id u))]) /\
    (forall email', toLowerCase (or_else email' "") = toLowerCase (or_else email "") ->
       loginUser email' w = loginUser email w).
Proof.
  intros email w. split; [|split].
  - rewrite users_of_slot. intros H. unfold loginUser.
    rewrite bind_run, read_cases. cbn [fst snd].
    change (getItem KEYS.users (local w)) with (crc_users_v3 (local w)).
    now rewrite H.
  - intros u Hu. rewrite loginUser_or_else, (loginUser_found _ _ _ Hu).
    eexists. split; [reflexivity|]. now repeat split.
  - intros email' He. unfold loginUser. now rewrite He.
Qed.

Lemma toLowerCase_empty (s : string) : toLowerCase s = "" -> s = "".
Proof. destruct s; [reflexivity | discriminate]. Qed.

(** PROPERTY X6: once [registerUser] has succeeded for an e-mail address,
    registering that address again, in any letter case and with any
    non-empty name, is refused with the conflict error and changes
    nothing. *)
Theorem registerUser_twice_refused :
  forall (email name role : option string) (w w1 : World) (u : User.t)
         (email' name' : string) (role' : option string),
    registerUser email name role w = (Ok u, w1) ->
    toLowerCase email' = toLowerCase (or_else email "") ->
    name' <> "" ->
    registerUser (Some email') (Some name') role' w1
    = (Error "Email already registered", w1).
Proof.
  intros email name role w w1 u email' name' role' H He Hn.
  destruct email as [e|]; [|discriminate H].
  destruct name as [n|]; [|now destruct (read KEYS.users [] w)].
  revert H. unfold registerUser at 1. rewrite bind_run, read_cases. cbn [fst snd].
  destruct (negb (truthy e) || negb (truthy n)) eqn:Hmiss; [discriminate|].
  destruct (existsb _ _) eqn:Hex; [discriminate|].
  cbn. intros [= <- <-].
  apply orb_false_elim in Hmiss as [Hte _]. apply negb_false_iff in Hte.
  rewrite or_else_empty in He.
  apply registerUser_taken.
  - unfold missing. change (truthy (Some email')) with (truthy email').
    intros Hf. apply truthy_string_nonempty in Hte. apply Hte.
    apply toLowerCase_empty. rewrite <- He.
    destruct (String.eqb_spec email' ""); [now subst|].
    unfold truthy, Truthy_string in Hf.
    apply negb_false_iff, String.eqb_eq in Hf. contradiction.
  - unfold missing. change (truthy (Some name')) with (truthy name').
    apply truthy_string_nonempty in Hn. now rewrite Hn.
  - eexists. split.
    + unfold users_of. rewrite read_cases. cbn. apply in_or_app. right. left.
      reflexivity.
    + cbn. now rewrite toLowerCase_idem.
Qed.


(* ------------------------------------------------------------------ *)
(** ** Updating projects *)

Lemma updateProject_absent (projectId : string) (changes : Changes.t) (w : World) :
  find (by_id projectId) (projects_of w) = None ->
  updateProject projectId changes w = (None, w).
Proof.
  unfold projects_of, updateProject, bind. rewrite read_cases. simpl.
  now intros ->.
Qed.

Lemma updateProject_found (projectId : string) (changes : Changes.t) (w : World)
    (p : Project.t) :
  find (by_id projectId) (projects_of w) = Some p ->
  let p' := complete_when_done (Object_assign p changes) in
  updateProject projectId changes w =
  (Some p', snd (write KEYS.projects
                   (assign_first (by_id projectId) (fun _ => p') (projects_of w)) w)).
Proof.
  unfold projects_of, updateProject, bind. rewrite read_cases. simpl.
  now intros ->.
Qed.

(** PROPERTY X8: [updateProject] returns null and changes nothing when no
    project has the id.  Otherwise the first project with the id takes over
    every field the changes give and keeps the others, except that its
    status is [completed] whenever all its stages are then done, whatever
    status the changes ask for; that project is written back in its place
    and returned, and users, leads, defaults and session stay as they
    are. *)
Theorem updateProject_outcomes :
  forall (projectId : string) (changes : Changes.t) (w : World),
    (find (by_id projectId) (projects_of w) = None ->
     updateProject projectId changes w = (None, w)) /\
    (forall p, find (by_id projectId) (projects_of w) = Some p ->
       exists p' w',
         updateProject projectId changes w = (Some p', w') /\
         projects_of w' = assign_first (by_id projectId) (fun _ => p') (projects_of w) /\
         same_but_projects w w' /\
         Project.status p' =
           (if all_done p' then "completed"
            else nullish (Changes.status changes) (Project.status p)) /\
         p' = Project.set_status (Project.status p') (Object_assign p changes)).
Proof.
  intros projectId changes w. split; [apply updateProject_absent|].
  intros p Hp.
  - eexists; eexists.
    split; [apply (updateProject_found _ _ _ _ Hp)|].
    split; [reflexivity|]. split; [now repeat split|]. split.
    + now rewrite complete_when_done_status.
    + unfold complete_when_done. destruct p, changes. cbn.
      now destruct (forallb _ _).
Qed.

Lemma map_assign_first {A B} (g : A -> B) (test : A -> bool) (f : A -> A) (l : list A) :
  (forall x, g (f x) = g x) -> map g (assign_first test f l) = map g l.
Proof.
  intros H. induction l as [|x r IH]; cbn; [reflexivity|].
  destruct (test x); cbn; [now rewrite H | now rewrite IH].
Qed.

Lemma Forall2_assign_first {A} (R : A -> A -> Prop) (test : A -> bool) (f : A -> A)
    (l : list A) :
  (forall x, R x x) -> (forall x, R x (f x)) -> Forall2 R l (assign_first test f l).
Proof.
  intros Hr Hf. induction l as [|x r IH]; cbn; [constructor|].
  destruct (test x); constructor; auto.
  clear IH. induction r; constructor; auto.
Qed.

(** PROPERTY X9: whatever its arguments, [toggleStage] keeps the stored
    projects in place: as many as before, and each one with the id, the
    stage keys and the stage labels it had; and a project that was
    [completed] stays [completed]. *)
Theorem toggleStage_keeps_shape :
  forall (projectId stageKey : string) (w : World),
    Forall2 (fun p p' =>
               Project.id p' = Project.id p /\
               map Stage.key (Project.stages p') = map Stage.key (Project.stages p) /\
               map Stage.label (Project.stages p') = map Stage.label (Project.stages p) /\
               (Project.status p = "completed" -> Project.status p' = "completed"))
            (projects_of w)
            (projects_of (snd (toggleStage projectId stageKey w))).
Proof.
  intros projectId stageKey w. rewrite toggleStage_projects.
  apply Forall2_assign_first; [now repeat split|].
  intros p. rewrite complete_when_done_id, flip_stage_id.
  rewrite complete_when_done_stages, flip_stage_stages.
  split; [reflexivity|]. split; [|split].
  - now apply map_assign_first.
  - now apply map_assign_first.
  - intros Hc. rewrite complete_when_done_status, flip_stage_status, Hc.
    now destruct (all_done _).
Qed.

(** PROPERTY X10: [addProject], [updateProject] and [toggleStage] touch
    nothing but the stored projects: the stored users, leads and defaults
    and the session are after the call what they were before it. *)
Theorem project_calls_frame :
  forall (w : World),
    (forall customerId payload,
       same_but_projects w (snd (addProject customerId payload w))) /\
    (forall projectId changes,
       same_but_projects w (snd (updateProject projectId changes w))) /\
    (forall projectId stageKey,
       same_but_projects w (snd (toggleStage projectId stageKey w))).
Proof.
  intros w. split; [|split].
  - intros. apply addProject_frame.
  - intros. apply updateProject_frame.
  - intros. apply toggleStage_frame.
Qed.

(* ------------------------------------------------------------------ *)
(** ** Start, reset and seed *)

(** PROPERTY X11: after [clearAll] nothing is stored: users, leads and
    projects read as empty, there are no defaults and no session, and
    [cleared] was announced.  The defaults are not written again, so a
    project created next without commissionPercent gets the built-in 6,
    and a next [seedDemo] finds no users and seeds. *)
Theorem clearAll_outcomes :
  forall (w : World),
    let w' := snd (clearAll w) in
    users_of w' = [] /\ leads_of w' = [] /\ projects_of w' = [] /\
    getItem KEYS.defaults (local w') = None /\
    fst (getSession w') = Normal None /\
    channel w' = channel w ++ [cleared] /\
    (forall customerId payload,
       Payload.commissionPercent payload = None ->
       Project.commissionPercent (fst (addProject customerId payload w')) = 6%Z) /\
    length (users_of (snd (seedDemo w'))) = 3.
Proof.
  intros w w'. repeat split.
  intros customerId payload H. now rewrite addProject_commission, H.
Qed.

Lemma seedDemo_skips (w : World) :
  users_of w <> [] -> seedDemo w = (tt, w).
Proof.
  rewrite users_of_slot. intros H.
  unfold seedDemo. rewrite bind_run, read_cases. cbn [fst snd].
  change (getItem KEYS.users (local w)) with (crc_users_v3 (local w)).
  destruct (match crc_users_v3 (local w) with Some (Encoded v) => v | _ => [] end);
    [contradiction | reflexivity].
Qed.

(** PROPERTY X12: [seedDemo] does nothing when a user is stored.  When
    none is, it stores a referrer, an admin and a customer, one new lead
    filed by that referrer and one project of that customer referred by
    that referrer, replacing whatever leads and projects were stored.
    Calling it a second time changes nothing. *)
Theorem seedDemo_outcomes :
  forall (w : World),
    (users_of w <> [] -> seedDemo w = (tt, w)) /\
    (users_of w = [] ->
     exists referrer admin customer lead project,
       users_of (snd (seedDemo w)) = [referrer; admin; customer] /\
       User.role referrer = Some "referrer" /\ User.role admin = Some "admin" /\
       User.role customer = Some "customer" /\
       leads_of (snd (seedDemo w)) = [lead] /\
       Lead.referrerId lead = Some (User.id referrer) /\ Lead.status lead = "new" /\
       projects_of (snd (seedDemo w)) = [project] /\
       Project.customerId project = User.id customer /\
       Project.referrerId project = Some (User.id referrer) /\
       map Stage.done (Project.stages project) = [true; false; false; false]) /\
    seedDemo (snd (seedDemo w)) = (tt, snd (seedDemo w)).
Proof.
  intros w.
  assert (Hseed : users_of w = [] -> users_of (snd (seedDemo w)) <> [] /\
     exists referrer admin customer lead project,
       users_of (snd (seedDemo w)) = [referrer; admin; customer] /\
       User.role referrer = Some "referrer" /\ User.role admin = Some "admin" /\
       User.role customer = Some "customer" /\
       leads_of (snd (seedDemo w)) = [lead] /\
       Lead.referrerId lead = Some (User.id referrer) /\ Lead.status lead = "new" /\
       projects_of (snd (seedDemo w)) = [project] /\
       Project.customerId project = User.id customer /\
       Project.referrerId project = Some (User.id referrer) /\
       map Stage.done (Project.stages project) = [true; false; false; false]).
  { rewrite (users_of_slot w). intros H.
    unfold seedDemo. rewrite bind_run, read_cases. cbn [fst snd].
    change (getItem KEYS.users (local w)) with (crc_users_v3 (local w)).
    rewrite H. cbn. split; [discriminate|].
    do 5 eexists. repeat split. }
  split; [apply seedDemo_skips|]. split; [intros H; exact (proj2 (Hseed H))|].
  destruct (users_of w) as [|u r] eqn:E.
  - apply seedDemo_skips. exact (proj1 (Hseed eq_refl)).
  - rewrite (seedDemo_skips w); [|rewrite E; discriminate]. cbn [snd].
    apply seedDemo_skips. rewrite E. discriminate.
Qed.

(** PROPERTY X13: loading the module writes the defaults with commission
    6 when no defaults text is stored or the stored text is empty, and
    leaves any other stored text alone; loading it again changes nothing.
    A stored text that does not parse is left alone too, and a project
    created next without commissionPercent then gets the built-in 6. *)
Theorem init_outcomes :
  forall (w : World),
    (getItem KEYS.defaults (local w) = None \/
     getItem KEYS.defaults (local w) = Some Empty ->
     getItem KEYS.defaults (local (snd (init w))) = Some (Encoded (Defaults.mk 6)) /\
     channel (snd (init w))
       = channel w ++ [sync "crc_defaults_v3" (Date_toISOString w (calls w))]) /\
    (forall t, getItem KEYS.defaults (local w) = Some t -> t <> Empty ->
       init w = (tt, w)) /\
    init (snd (init w)) = (tt, snd (init w)) /\
    (getItem KEYS.defaults (local w) = Some Malformed ->
     forall customerId payload,
       Payload.commissionPercent payload = None ->
       Project.commissionPercent (fst (addProject customerId payload (snd (init w))))
       = 6%Z).
Proof.
  intros w. unfold init. rewrite !bind_run. cbn [fst snd localStorage_getItem].
  split; [|split; [|split]].
  - intros [H | H]; rewrite H; cbn; now split.
  - intros t H Ht. rewrite H. destruct t; [contradiction | reflexivity | reflexivity].
  - destruct (getItem KEYS.defaults (local w)) as [[| |d]|] eqn:E; cbn; try reflexivity.
    + change (getItem KEYS.defaults (local w)) with (crc_defaults_v3 (local w)) in E.
      now rewrite E.
    + change (getItem KEYS.defaults (local w)) with (crc_defaults_v3 (local w)) in E.
      now rewrite E.
  - intros H customerId payload Hp. rewrite H. cbn [truthy Truthy_option Truthy_text negb].
    rewrite addProject_commission, Hp. cbn.
    change (getItem KEYS.defaults (local w)) with (crc_defaults_v3 (local w)) in H.
    now rewrite H.
Qed.

(* ------------------------------------------------------------------ *)
(** ** From a lead to a customer *)

Lemma customer_resolved_found (email : string) (customerName : option string)
    (before after : list User.t) (cust : User.t) :
  customer_resolved email customerName before cust after ->
  find (by_email email) after = Some cust.
Proof.
  intros [Hk Hn]. destruct (find (by_email email) before) as [u|] eqn:E.
  - destruct (Hk u eq_refl) as [-> ->]. exact E.
  - destruct (Hn eq_refl) as (-> & He & _). now apply find_by_email_appended.
Qed.

(** PROPERTY X14: converting the same lead a second time resolves to the
    customer of the first conversion: no user is added, and the second
    project has the customerId of the first. *)
Theorem convertLeadToProject_reuses_customer :
  forall (leadId : string) (name name' : option string) (budget budget' : option Z)
         (w : World) (lead : Lead.t),
    find (by_lead_id leadId) (leads_of w) = Some lead ->
    exists p1 w1 p2 w2,
      convertLeadToProject leadId name budget w = (Ok p1, w1) /\
      convertLeadToProject leadId name' budget' w1 = (Ok p2, w2) /\
      Project.customerId p2 = Project.customerId p1 /\
      users_of w2 = users_of w1.
Proof.
  intros leadId name name' budget budget' w lead Hl.
  destruct (convertLeadToProject_effects leadId name budget w lead Hl)
    as (c1 & p1 & w1 & Hr1 & Hc1 & Hid1 & _ & _ & _ & _ & Hf1 & _).
  destruct (convertLeadToProject_effects leadId name' budget' w1 _ Hf1)
    as (c2 & p2 & w2 & Hr2 & Hc2 & Hid2 & _).
  exists p1, w1, p2, w2. split; [exact Hr1|]. split; [exact Hr2|].
  apply customer_resolved_found in Hc1.
  destruct Hc2 as [Hk _]. cbn [Lead.convert Lead.email] in Hk.
  destruct (Hk c1 Hc1) as [-> ->]. split; [congruence | reflexivity].
Qed.

(** PROPERTY X15: after [convertLeadToProject] succeeded for a lead,
    [loginUser] with the lead's e-mail succeeds as the customer the new
    project belongs to. *)
Theorem login_after_conversion :
  forall (leadId : string) (name : option string) (budget : option Z)
         (w w' : World) (lead : Lead.t) (project : Project.t),
    find (by_lead_id leadId) (leads_of w) = Some lead ->
    convertLeadToProject leadId name budget w = (Ok project, w') ->
    exists cust w'',
      loginUser (Some (Lead.email lead)) w' = (Ok cust, w'') /\
      User.id cust = Project.customerId project /\
      fst (getSession w'') = Normal (Some cust).
Proof.
  intros leadId name budget w w' lead project Hl Hr.
  destruct (convertLeadToProject_effects leadId name budget w lead Hl)
    as (c & p & w1 & Hr1 & Hc & Hid & _).
  rewrite Hr in Hr1. injection Hr1 as <- <-.
  apply customer_resolved_found in Hc.
  exists c. eexists. rewrite (loginUser_found _ _ _ Hc).
  split; [reflexivity|]. split; [now rewrite Hid | reflexivity].
Qed.

(** PROPERTY X16: [addLead] always files the lead first in the stored
    leads, new and with no project, its e-mail in lower case; and the
    lead just filed can be converted by its id, whatever leads were stored
    before: the project carries its referrer on (null for a falsy one)
    and the lead ends up converted. *)
Theorem addLead_then_convert :
  forall (referrerId email notes name : option string) (budget : option Z) (w : World),
    let lead := fst (addLead referrerId email notes w) in
    let w1 := snd (addLead referrerId email notes w) in
    leads_of w1 = lead :: leads_of w /\
    Lead.status lead = "new" /\ Lead.convertedProjectId lead = None /\
    Lead.referrerId lead = referrerId /\
    Lead.email lead = toLowerCase (or_else email "") /\
    exists project w2,
      convertLeadToProject (Lead.id lead) name budget w1 = (Ok project, w2) /\
      Project.referrerId project = or_null referrerId /\
      leads_of w2 = Lead.convert (Project.id project) lead :: leads_of w.
Proof.
  intros referrerId email notes name budget w lead w1.
  assert (H1 : leads_of w1 = lead :: leads_of w) by reflexivity.
  split; [exact H1|]. do 4 (split; [reflexivity|]).
  assert (Hf : find (by_lead_id (Lead.id lead)) (leads_of w1) = Some lead).
  { rewrite H1. cbn [find]. now rewrite String.eqb_refl. }
  destruct (convertLeadToProject_effects (Lead.id lead) name budget w1 lead Hf)
    as (c & p & w2 & Hr & _ & _ & Href & _ & _ & Hls & _).
  exists p, w2. split; [exact Hr|]. split; [exact Href|].
  rewrite Hls, H1. cbn [assign_first]. now rewrite String.eqb_refl.
Qed.

(* ------------------------------------------------------------------ *)
(** ** What no call undoes *)

Lemma users_step_grows (c : call) (w : World) :
  c <> call_clearAll ->
  exists more, users_of (exec c w) = users_of w ++ more.
Proof.
  intros Hc.
  assert (Same : forall w', users_of w' = users_of w ->
                            exists more, users_of w' = users_of w ++ more).
  { intros w' ->. exists []. now rewrite app_nil_r. }
  assert (Get : forall e n r, exists more,
             users_of (snd (registerOrGetUserByEmail e n r w)) = users_of w ++ more).
  { intros e n r. rewrite registerOrGetUserByEmail_or_else.
    destruct (find (by_email (or_else e "")) (users_of w)) as [u|] eqn:E.
    - apply Same. now rewrite (registerOrGetUserByEmail_known _ _ _ _ _ E).
    - rewrite (registerOrGetUserByEmail_new _ n r _ E). cbv zeta.
      eexists. reflexivity. }
  destruct c; cbn [exec]; try (apply Same; reflexivity).
  - destruct email as [e|]; [|apply Same; now destruct name].
    destruct name as [n|]; [|now apply Same].
    rewrite !users_of_slot.
    unfold registerUser. rewrite bind_run, read_cases. cbn [fst snd].
    destruct (negb (truthy e) || negb (truthy n)); [exists []; now rewrite app_nil_r|].
    destruct (existsb _ _); [exists []; now rewrite app_nil_r|].
    eexists. reflexivity.
  - apply Same, users_of_same_slot. unfold loginUser. run_frame.
  - apply Get.
  - apply Same, users_of_same_slot, updateProject_frame.
  - apply Same, users_of_same_slot, toggleStage_frame.
  - destruct (convertLeadToProject_users leadId customerName budget w)
      as [-> | (lead & _ & ->)]; [now apply Same | apply Get].
  - contradiction.
  - destruct (users_of w) as [|u r] eqn:E.
    + eexists. reflexivity.
    + apply Same. rewrite (seedDemo_skips w); [exact E | rewrite E; discriminate].
Qed.

(** PROPERTY X17: no call but [clearAll] changes or removes a stored
    user: after it the stored users are those of before, in their order,
    possibly followed by new ones. *)
Theorem users_only_grow :
  forall (c : call) (w : World),
    c <> call_clearAll ->
    exists more, users_of (exec c w) = users_of w ++ more.
Proof. exact users_step_grows. Qed.

Lemma nullish_twice {A} (x : option A) (d : A) : nullish x (nullish x d) = nullish x d.
Proof. now destruct x. Qed.

Lemma assign_first_ext {A} (test : A -> bool) (f g : A -> A) (l : list A) :
  (forall x, test x = true -> f x = g x) ->
  assign_first test f l = assign_first test g l.
Proof.
  intros H. induction l as [|x r IH]; cbn; [reflexivity|].
  destruct (test x) eqn:E; [now rewrite (H x E) | now rewrite IH].
Qed.

Lemma update_twice (changes : Changes.t) (p : Project.t) :
  complete_when_done
    (Object_assign (complete_when_done (Object_assign p changes)) changes)
  = complete_when_done (Object_assign p changes).
Proof.
  unfold complete_when_done at 2.
  destruct (forallb Stage.done (Project.stages (Object_assign p changes))) eqn:E.
  - unfold complete_when_done, Object_assign in *.
    cbn [Project.set_status Project.stages Project.id Project.customerId
         Project.createdAt Project.location Project.plot Project.budget
         Project.materials Project.timeline Project.status Project.verified
         Project.assignedContractor Project.referrerId Project.commissionPercent] in *.
    rewrite !nullish_twice, E. reflexivity.
  - unfold complete_when_done, Object_assign in *.
    cbn [Project.set_status Project.stages Project.id Project.customerId
         Project.createdAt Project.location Project.plot Project.budget
         Project.materials Project.timeline Project.status Project.verified
         Project.assignedContractor Project.referrerId Project.commissionPercent] in *.
    rewrite !nullish_twice, E. reflexivity.
Qed.

(** PROPERTY X18: [updateProject] is idempotent when the changes leave
    the id alone: the same call made a second time returns what the first
    returned and stores the projects the first stored. *)
Theorem updateProject_idempotent :
  forall (projectId : string) (changes : Changes.t) (w : World),
    Changes.id changes = None ->
    let r := updateProject projectId changes w in
    fst (updateProject projectId changes (snd r)) = fst r /\
    projects_of (snd (updateProject projectId changes (snd r))) = projects_of (snd r).
Proof.
  intros projectId changes w Hid r.
  assert (Keep : forall x, by_id projectId x = true ->
             by_id projectId (complete_when_done (Object_assign x changes)) = true).
  { intros x Hx. rewrite complete_when_done_id. cbn. now rewrite Hid. }
  split.
  - subst r. destruct (find (by_id projectId) (projects_of w)) as [p|] eqn:E.
    + rewrite (updateProject_found _ changes _ _ E). cbv zeta. cbn [fst snd].
      set (p1 := complete_when_done (Object_assign p changes)).
      assert (E1 : find (by_id projectId)
                     (projects_of (snd (write KEYS.projects
                        (assign_first (by_id projectId) (fun _ => p1) (projects_of w)) w)))
                   = Some p1).
      { rewrite projects_of_write.
        apply (find_assign_first _ (fun _ => p1) _ _ E).
        apply Keep. now apply find_some in E. }
      rewrite (updateProject_found _ changes _ _ E1). cbv zeta. cbn [fst].
      unfold p1. now rewrite update_twice.
    + rewrite (updateProject_absent projectId changes w E). cbn [fst snd].
      now rewrite (updateProject_absent projectId changes w E).
  - subst r. rewrite !updateProject_projects.
    rewrite (assign_first_twice _ _ _ _ Keep).
    apply assign_first_ext. intros x _. apply update_twice.
Qed.

(* ------------------------------------------------------------------ *)
(** ** The further properties on the sample runs *)

Lemma reachable_converted_once : reachable converted_once.
Proof. unfold converted_once. apply reachable_exec, reachable_demo. Defined.

Lemma users_emails_unique_witness : emails_unique (users_of demo).
Proof. exact (users_emails_unique demo reachable_demo). Defined.

Lemma users_normal_witness :
  toLowerCase (User.email alice) = User.email alice /\
  String.prefix "u_" (User.id alice) = true.
Proof.
  apply (users_normal demo reachable_demo alice). vm_compute. left. reflexivity.
Defined.

Lemma leads_consistent_witness :
  Lead.convertedProjectId (Lead.convert "p_17" seeded_lead) <> None <->
  Lead.status (Lead.convert "p_17" seeded_lead) = "converted".
Proof.
  apply (leads_consistent converted_once reachable_converted_once).
  vm_compute. left. reflexivity.
Defined.

Lemma loginUser_outcomes_witness :
  loginUser (Some "nobody@example.com") demo
    = (Error "User not found. Register first.", demo) /\
  (exists w', loginUser (Some "BOB@Admin.com") demo = (Ok bob, w') /\
              fst (getSession w') = Normal (Some bob)) /\
  loginUser (Some "bob@ADMIN.com") demo = loginUser (Some "BOB@Admin.com") demo.
Proof.
  split; [|split].
  - apply (proj1 (loginUser_outcomes (Some "nobody@example.com") demo)).
    vm_compute. reflexivity.
  - destruct (proj1 (proj2 (loginUser_outcomes (Some "BOB@Admin.com") demo)) bob)
      as (w' & Hr & Hs & _).
    + vm_compute. reflexivity.
    + exists w'. now split.
  - apply (proj2 (proj2 (loginUser_outcomes (Some "BOB@Admin.com") demo))).
    vm_compute. reflexivity.
Defined.

Lemma registerUser_twice_refused_witness :
  registerUser (Some "DANA@EXAMPLE.COM") (Some "Dana again") None
    (snd (registerUser (Some "Dana@Example.com") (Some "Dana") (Some "referrer") demo))
  = (Error "Email already registered",
     snd (registerUser (Some "Dana@Example.com") (Some "Dana") (Some "referrer") demo)).
Proof.
  apply (registerUser_twice_refused (Some "Dana@Example.com") (Some "Dana")
           (Some "referrer") demo _
           (User.mk "u_14" "dana@example.com" "Dana" (Some "referrer") "t15")).
  - vm_compute. reflexivity.
  - vm_compute. reflexivity.
  - discriminate.
Defined.


Lemma updateProject_outcomes_witness :
  updateProject "p_0" approve finished = (None, finished) /\
  exists p' w',
    updateProject "p_11" approve finished = (Some p', w') /\
    Project.status p' = "completed".
Proof.
  split.
  - apply (proj1 (updateProject_outcomes "p_0" approve finished)).
    vm_compute. reflexivity.
  - destruct (proj2 (updateProject_outcomes "p_11" approve finished) finished_project)
      as (p' & w' & Hr & _ & _ & Hs & Hp).
    + vm_compute. reflexivity.
    + exists p', w'. split; [exact Hr|]. rewrite Hs.
      replace (all_done p') with true; [reflexivity|].
      rewrite Hp. reflexivity.
Defined.

Lemma toggleStage_keeps_shape_witness :
  Forall2 (fun p p' =>
             Project.id p' = Project.id p /\
             map Stage.key (Project.stages p') = map Stage.key (Project.stages p) /\
             map Stage.label (Project.stages p') = map Stage.label (Project.stages p) /\
             (Project.status p = "completed" -> Project.status p' = "completed"))
          (projects_of finished)
          (projects_of (snd (toggleStage "p_11" "foundation" finished))).
Proof. exact (toggleStage_keeps_shape "p_11" "foundation" finished). Defined.

Lemma clearAll_outcomes_witness :
  Project.commissionPercent
    (fst (addProject "u_5" Payload.empty
            (snd (clearAll (snd (writeDefaults (Defaults.mk 9) demo)))))) = 6%Z.
Proof.
  apply (clearAll_outcomes (snd (writeDefaults (Defaults.mk 9) demo))). reflexivity.
Defined.

Lemma seedDemo_outcomes_witness :
  seedDemo demo = (tt, demo) /\
  exists referrer admin customer,
    users_of (snd (seedDemo (loaded sample_random sample_date)))
    = [referrer; admin; customer].
Proof.
  split.
  - apply (proj1 (seedDemo_outcomes demo)). vm_compute. discriminate.
  - destruct (proj1 (proj2 (seedDemo_outcomes (loaded sample_random sample_date))))
      as (r & a & c & l & p & Hu & _).
    + vm_compute. reflexivity.
    + now exists r, a, c.
Defined.

Lemma init_outcomes_witness :
  getItem KEYS.defaults (local (loaded sample_random sample_date))
    = Some (Encoded (Defaults.mk 6)) /\
  init garbled = (tt, garbled) /\
  Project.commissionPercent (fst (addProject "u_5" Payload.empty (snd (init garbled))))
    = 6%Z.
Proof.
  split; [|split].
  - apply (proj1 (init_outcomes (blank sample_random sample_date))). left. reflexivity.
  - apply (proj1 (proj2 (init_outcomes garbled)) Malformed); [reflexivity|discriminate].
  - apply (proj2 (proj2 (proj2 (init_outcomes garbled)))); reflexivity.
Defined.

Lemma convertLeadToProject_reuses_customer_witness :
  exists p1 w1 p2 w2,
    convertLeadToProject "l_8" (Some "Lee") (Some 10000%Z) demo = (Ok p1, w1) /\
    convertLeadToProject "l_8" (Some "Leigh") None w1 = (Ok p2, w2) /\
    Project.customerId p2 = Project.customerId p1 /\
    users_of w2 = users_of w1.
Proof.
  apply (convertLeadToProject_reuses_customer "l_8" (Some "Lee") (Some "Leigh")
           (Some 10000%Z) None demo seeded_lead).
  vm_compute. reflexivity.
Defined.

Lemma login_after_conversion_witness :
  exists cust w'',
    loginUser (Some "lead1@example.com") converted_once = (Ok cust, w'') /\
    User.id cust = "u_14" /\
    fst (getSession w'') = Normal (Some cust).
Proof.
  apply (login_after_conversion "l_8" (Some "Lee") (Some 10000%Z) demo converted_once
           seeded_lead
           (Project.mk "p_17" "u_14" "t18" "(from lead)" 0%Z 10000%Z "TBD" 12%Z
                       "pending" false None (Some "u_1") 6%Z fresh_stages)).
  - vm_compute. reflexivity.
  - vm_compute. reflexivity.
Defined.

Lemma users_only_grow_witness :
  exists more,
    users_of (exec (call_convertLeadToProject "l_8" (Some "Lee") None) demo)
    = users_of demo ++ more.
Proof. apply users_only_grow. discriminate. Defined.

Lemma updateProject_idempotent_witness :
  fst (updateProject "p_11" approve (snd (updateProject "p_11" approve demo)))
    = fst (updateProject "p_11" approve demo) /\
  projects_of (snd (updateProject "p_11" approve (snd (updateProject "p_11" approve demo))))
    = projects_of (snd (updateProject "p_11" approve demo)).
Proof. apply (updateProject_idempotent "p_11" approve demo). reflexivity. Defined.
